(** * Top-10 doublers: the scoring pipeline of [analysis.py]

    A shallow embedding of [analysis.py] (history fetch with retry and
    fallback, indicators, per-horizon scoring, per-horizon normalisation and
    top-10 selection) and the properties of it that the specification states.

    Numbers.  The program computes on IEEE doubles through numpy and pandas.
    They are modelled as real numbers extended with [NaN] and the two
    infinities: arithmetic on finite values is exact (no rounding, no
    overflow), the special values follow the IEEE rules, and zero is the
    positive zero.  Everything stated below is therefore stated up to
    rounding. *)

From Stdlib Require Import String Ascii.
From Stdlib Require DecimalString.
From Stdlib Require Import Reals Lra Lia ZArith List Bool.
From Stdlib Require Import Permutation Sorted.
Import ListNotations.

Set Implicit Arguments.

(** ** Extended reals standing for doubles *)

Inductive float : Type :=
| NaN
| PInf
| NInf
| Fin (x : R).

Definition rlt (x y : R) : bool := if Rlt_dec x y then true else false.
Definition req (x y : R) : bool := if Req_dec_T x y then true else false.

Arguments rlt : simpl never.
Arguments req : simpl never.

(** [pd.isna] on a scalar. *)
Definition isna (a : float) : bool :=
  match a with NaN => true | _ => false end.

Definition is_finite (a : float) : Prop :=
  match a with Fin _ => True | _ => False end.

Definition fneg (a : float) : float :=
  match a with
  | NaN => NaN
  | PInf => NInf
  | NInf => PInf
  | Fin x => Fin (- x)
  end.

Definition fadd (a b : float) : float :=
  match a, b with
  | NaN, _ | _, NaN => NaN
  | PInf, NInf | NInf, PInf => NaN
  | PInf, _ | _, PInf => PInf
  | NInf, _ | _, NInf => NInf
  | Fin x, Fin y => Fin (x + y)
  end.

Definition fsub (a b : float) : float := fadd a (fneg b).

(** The infinity whose sign is the sign of [x]; [NaN] at zero. *)
Definition inf_signed (x : R) : float :=
  if rlt 0 x then PInf else if rlt x 0 then NInf else NaN.

Definition fmul (a b : float) : float :=
  match a, b with
  | NaN, _ | _, NaN => NaN
  | PInf, PInf | NInf, NInf => PInf
  | PInf, NInf | NInf, PInf => NInf
  | PInf, Fin y | Fin y, PInf => inf_signed y
  | NInf, Fin y | Fin y, NInf => inf_signed (- y)
  | Fin x, Fin y => Fin (x * y)
  end.

(** numpy scalar division: dividing by zero gives an infinity (or [NaN] for
    0/0), it does not raise. *)
Definition fdiv (a b : float) : float :=
  match a, b with
  | NaN, _ | _, NaN => NaN
  | (PInf | NInf), (PInf | NInf) => NaN
  | Fin _, (PInf | NInf) => Fin 0
  | PInf, Fin y => if rlt y 0 then NInf else PInf
  | NInf, Fin y => if rlt y 0 then PInf else NInf
  | Fin x, Fin y => if req y 0 then inf_signed x else Fin (x / y)
  end.

Definition fabs (a : float) : float :=
  match a with
  | NaN => NaN
  | PInf | NInf => PInf
  | Fin x => Fin (Rabs x)
  end.

Definition fsqrt (a : float) : float :=
  match a with
  | NaN | NInf => NaN
  | PInf => PInf
  | Fin x => if rlt x 0 then NaN else Fin (sqrt x)
  end.

(** Python's [<] on doubles: every comparison with [NaN] is false. *)
Definition flt (a b : float) : bool :=
  match a, b with
  | NaN, _ | _, NaN => false
  | _, NInf | PInf, _ => false
  | NInf, _ | _, PInf => true
  | Fin x, Fin y => rlt x y
  end.

(** ** Exceptions *)

Inductive exn : Type :=
| HTTPError
| ConnectionError
| JSONDecodeError
| TypeError
| ValueError
| KeyError
| RuntimeError.

(** A computation that returns or raises. *)
Inductive result (A : Type) : Type :=
| Ok (a : A)
| Raise (e : exn).
Arguments Ok {A} a.
Arguments Raise {A} e.

(** [math.log1p]: a [ValueError] ("math domain error") at and below [-1]. *)
Definition log1p (a : float) : result float :=
  match a with
  | NaN => Ok NaN
  | PInf => Ok PInf
  | NInf => Raise ValueError
  | Fin x => if rlt (-1) x then Ok (Fin (ln (1 + x))) else Raise ValueError
  end.

(** ** Constants & tuning *)

Definition YEARS_HISTORY : Z := 8.
Definition HORIZONS_MONTHS : list Z := [6; 12; 18; 24; 48]%Z.
Definition MIN_AVG_VOLUME : float := Fin 30000.
Definition VOL_PENALTY : float := Fin (5 / 10).
Definition LOGVOL_WEIGHT : float := Fin (5 / 1000).

(** [math.sqrt(252)] *)
Definition sqrt252 : float := Fin (sqrt 252).

(** ** Series and frames

    A frame is the list of its rows in positional order; its index is the
    [date] of each row, counted in days.  Every frame that [get_history]
    returns has the five columns (a missing one is filled with [NaN]), so the
    columns are fields of the row. *)

Record bar : Type := mkBar {
  date : Z;
  open : float;
  high : float;
  low : float;
  close : float;
  volume : float
}.

Definition frame : Type := list bar.

(** A row after [compute_indicators]. *)
Record ibar : Type := mkIbar {
  base : bar;
  ret_1d : float;
  tr : float;
  atr : float;
  volatility_annual : float
}.

Definition iframe : Type := list ibar.

(** *** pandas reductions (all skip [NaN]) *)

Definition dropna (l : list float) : list float :=
  filter (fun a => negb (isna a)) l.

Definition fsum (l : list float) : float := fold_left fadd l (Fin 0).

Definition count_f (l : list float) : float := Fin (INR (length l)).

(** Mean of the values that are not [NaN]; [NaN] when there is none. *)
Definition nanmean (l : list float) : float :=
  let v := dropna l in
  match v with
  | [] => NaN
  | _ => fdiv (fsum v) (count_f v)
  end.

(** Sample standard deviation ([ddof=1]) of the values that are not [NaN];
    [NaN] when fewer than two remain. *)
Definition nanstd (l : list float) : float :=
  let v := dropna l in
  if (length v <? 2)%nat then NaN
  else
    let m := fdiv (fsum v) (count_f v) in
    let ss := fsum (map (fun a => fmul (fsub a m) (fsub a m)) v) in
    fsqrt (fdiv ss (fsub (count_f v) (Fin 1))).

Definition fmin2 (a b : float) : float := if flt b a then b else a.
Definition fmax2 (a b : float) : float := if flt a b then b else a.

(** [Series.min()] and [Series.max()]: over the values that are not [NaN];
    [NaN] when there is none. *)
Definition nanmin (l : list float) : float :=
  match dropna l with
  | [] => NaN
  | a :: v => fold_left fmin2 v a
  end.

Definition nanmax (l : list float) : float :=
  match dropna l with
  | [] => NaN
  | a :: v => fold_left fmax2 v a
  end.

(** [Series.std()] hands back a float object, never [None]: an undefined
    deviation is [NaN]. *)
Definition Series_std (l : list float) : option float := Some (nanstd l).

(** *** Rolling windows *)

(** The trailing window of width [w] that ends at position [t]. *)
Definition window (w t : nat) (l : list float) : list float :=
  skipn (t + 1 - w) (firstn (t + 1) l).

Definition rolling (w : nat) (f : list float -> float) (l : list float)
  : list float :=
  map (fun t => f (window w t l)) (seq 0 (length l)).

(** [rolling(w, min_periods=1).mean()] *)
Definition rolling_mean (w : nat) (l : list float) : list float :=
  rolling w nanmean l.

(** [rolling(w, min_periods=1).std()]: pandas yields [NaN] unless the number
    of observations exceeds [ddof = 1]. *)
Definition rolling_std (w : nat) (l : list float) : list float :=
  rolling w nanstd l.

(** *** [pct_change]

    pandas before 3.0 forward-fills the column first ([fill_method='pad']),
    pandas 3.0 does not; [pad] selects the behaviour of the installed
    pandas. *)

Fixpoint ffill_from (last : float) (l : list float) : list float :=
  match l with
  | [] => []
  | a :: l' =>
      let a' := if isna a then last else a in
      a' :: ffill_from a' l'
  end.

Definition ffill (l : list float) : list float := ffill_from NaN l.

Definition shift1 (l : list float) : list float :=
  firstn (length l) (NaN :: l).

Definition pct_change (pad : bool) (l : list float) : list float :=
  let data := if pad then ffill l else l in
  map (fun p => fsub (fdiv (fst p) (snd p)) (Fin 1))
      (combine data (shift1 data)).

(** ** [compute_indicators] *)

Definition nan_bar : bar := mkBar 0 NaN NaN NaN NaN NaN.

Definition compute_indicators (pad : bool) (df : frame) : iframe :=
  let ret := pct_change pad (map close df) in
  let trs := map (fun b => fabs (fsub (high b) (low b))) df in
  let atrs := rolling_mean 14 trs in
  let vols := map (fun s => fmul s sqrt252) (rolling_std 21 ret) in
  map (fun t =>
         mkIbar (nth t df nan_bar) (nth t ret NaN) (nth t trs NaN)
                (nth t atrs NaN) (nth t vols NaN))
      (seq 0 (length df)).

(** ** [score_for_horizon] *)

(** The dictionary that [score_for_horizon] returns. *)
Record HorizonScore : Type := mkScore {
  return_ : float;
  volatility : float;
  avg_vol : float;
  score : float
}.

Definition idate (r : ibar) : Z := date (base r).

(** [df.index.max()] of a frame that is not empty. *)
Definition index_max (d0 : Z) (ds : list Z) : Z := fold_left Z.max ds d0.

(** [None] is [Insufficient].  The test ["volume" in recent.columns] always
    succeeds on a frame of [get_history], so its [else 0.0] is not
    represented. *)
Definition score_for_horizon (df : option iframe) (months : Z)
  : result (option HorizonScore) :=
  match df with
  | None | Some [] => Ok None
  | Some ((r0 :: rest) as rows) =>
      let end_ := index_max (idate r0) (map idate rest) in
      let lookback_days := (months * 30)%Z in
      let cutoff := (end_ - lookback_days)%Z in
      let recent := filter (fun r => (cutoff <=? idate r)%Z) rows in
      match recent with
      | [] => Ok None
      | first :: _ =>
          if (length recent <? 10)%nat then Ok None
          else
            let last_ := last recent first in
            let total_return :=
              fsub (fdiv (close (base last_)) (close (base first))) (Fin 1) in
            let vol :=
              match Series_std (map ret_1d recent) with
              | Some s => fmul s sqrt252
              | None => Fin 0
              end in
            let avg := nanmean (map (fun r => volume (base r)) recent) in
            if isna avg || flt avg MIN_AVG_VOLUME then Ok None
            else
              match log1p avg with
              | Raise e => Raise e
              | Ok lg =>
                  let sc :=
                    fadd (fsub (fmul total_return (Fin 1))
                               (fmul vol VOL_PENALTY))
                         (fmul lg LOGVOL_WEIGHT) in
                  Ok (Some (mkScore total_return vol avg sc))
              end
      end
  end.

(** ** The outside world

    Everything the program reads from outside is a field of [world]: the
    environment and the secret store, the primary provider's HTTP endpoint,
    the fallback provider, the clock, and the library behaviour that the
    source does not pin down.  A network call may answer differently each
    time it is made, so the providers are indexed by the number of calls
    made so far. *)

#[local] Unset Elimination Schemes.
Inductive json : Type :=
| JNull
| JBool (b : bool)
| JNum (x : float)
| JStr (s : string)
| JArr (items : list json)
| JObj (fields : list (string * json)).
#[local] Set Elimination Schemes.

Record world : Type := mkWorld {
  (** [os.getenv] *)
  getenv : string -> option string;
  (** [init_firebase]: raises on missing or corrupt credential material *)
  init_firebase : result unit;
  (** reading the document [config/keys]: raises, or the document's fields
      ([None] when the document does not exist) *)
  firestore_doc : result (option (list (string * string)));
  (** the [k]-th [requests.get] of the run for a symbol, through
      [raise_for_status] and [r.json()]: the parsed body, or the exception *)
  requests_get : nat -> string -> result json;
  (** [pd.DataFrame(arr)] with the column mapping, [to_datetime] and
      [sort_index] of [fetch_dhan_candles] *)
  candles_frame : json -> result frame;
  (** the [k]-th [yf.Ticker(ticker).history(...)] of the run, with the
      column renaming: the frame (possibly empty), or the exception *)
  yf_history : nat -> string -> result frame;
  (** [time.time()] when the report is written *)
  time_now : Z;
  (** whether the installed pandas pads in [pct_change] *)
  pandas_pad : bool;
  (** the row order that [sort_values("prob_est", ascending=False)] picks,
      as positions into the frame, given the [prob_est] column *)
  sort_values : list float -> list nat;
  (** the f-string of the [reason] column *)
  reason_text : HorizonScore -> string
}.

Inductive event : Type :=
| EvGet (symbol : string)
| EvSleep (seconds : nat)
| EvHistory (ticker : string).

Record state : Type := mkState {
  n_get : nat;
  n_history : nat;
  trace : list event
}.

Definition init_state : state := mkState 0 0 [].

(** State and exceptions. *)
Definition M (A : Type) : Type := state -> result A * state.

Definition ret {A} (a : A) : M A := fun s => (Ok a, s).
Definition raise {A} (e : exn) : M A := fun s => (Raise e, s).
Definition bind {A B} (m : M A) (k : A -> M B) : M B :=
  fun s => match m s with
           | (Ok a, s') => k a s'
           | (Raise e, s') => (Raise e, s')
           end.
(** [try: m  except Exception as e: h e] *)
Definition try_except {A} (m : M A) (h : exn -> M A) : M A :=
  fun s => match m s with
           | (Ok a, s') => (Ok a, s')
           | (Raise e, s') => h e s'
           end.
Definition lift {A} (r : result A) : M A := fun s => (r, s).

Notation "x <- m ;; k" := (bind m (fun x => k))
  (at level 61, m at next level, right associativity).
Notation "m ;;; k" := (bind m (fun _ => k))
  (at level 61, right associativity).

Fixpoint mapM {A B} (f : A -> M B) (l : list A) : M (list B) :=
  match l with
  | [] => ret []
  | a :: l' => b <- f a ;; bs <- mapM f l' ;; ret (b :: bs)
  end.

Definition do_get (w : world) (symbol : string) : M json :=
  fun s => (requests_get w (n_get s) symbol,
            mkState (S (n_get s)) (n_history s) (trace s ++ [EvGet symbol])).

Definition sleep (seconds : nat) : M unit :=
  fun s => (Ok tt, mkState (n_get s) (n_history s) (trace s ++ [EvSleep seconds])).

Definition do_history (w : world) (ticker : string) : M frame :=
  fun s => (yf_history w (n_history s) ticker,
            mkState (n_get s) (S (n_history s)) (trace s ++ [EvHistory ticker])).

(** ** [firebase_utils.get_secret] *)

Fixpoint lookup {V} (k : string) (d : list (string * V)) : option V :=
  match d with
  | [] => None
  | (k', v) :: d' => if String.eqb k k' then Some v else lookup k d'
  end.

Definition nonempty_str (s : string) : bool :=
  match s with EmptyString => false | _ => true end.

(** The second source of [get_secret]: the Firestore document. *)
Definition firestore_secret (w : world) (field_name : string)
  : result (option string) :=
  match init_firebase w with
  | Raise _ => Raise RuntimeError
  | Ok _ =>
      match firestore_doc w with
      | Raise _ => Raise RuntimeError
      | Ok None => Ok None
      | Ok (Some data) => Ok (lookup field_name data)
      end
  end.

Definition get_secret (w : world) (field_name : string)
  : result (option string) :=
  match getenv w field_name with
  | Some v =>
      if nonempty_str v then Ok (Some v) else firestore_secret w field_name
  | None => firestore_secret w field_name
  end.

(** ** [safe_get_json] *)

(** The iterations [i, i+1, ...] of [for i in range(retries)], [n] of them
    left; falling out of the loop returns [None]. *)
Fixpoint safe_get_json_loop (w : world) (symbol : string) (retries : nat)
  (n i : nat) : M json :=
  match n with
  | O => ret JNull
  | S n' =>
      try_except (do_get w symbol)
        (fun e =>
           if (i =? retries - 1)%nat then raise e
           else sleep 1 ;;; safe_get_json_loop w symbol retries n' (S i))
  end.

Definition safe_get_json (w : world) (symbol : string) (retries : nat)
  : M json :=
  safe_get_json_loop w symbol retries retries 0.

Definition default_retries : nat := 2.

(** ** [fetch_dhan_candles] *)

(** Python truthiness of a parsed body. *)
Definition truthy (j : json) : bool :=
  match j with
  | JNull => false
  | JBool b => b
  | JNum x => match x with Fin r => negb (req r 0) | _ => true end
  | JStr s => nonempty_str s
  | JArr items => match items with [] => false | _ => true end
  | JObj fields => match fields with [] => false | _ => true end
  end.

(** [len(arr)] *)
Definition py_len (j : json) : result nat :=
  match j with
  | JStr s => Ok (String.length s)
  | JArr items => Ok (length items)
  | JObj fields => Ok (length fields)
  | _ => Raise TypeError
  end.

Definition candles_of (j : json) : json :=
  match j with
  | JObj fields =>
      match lookup "candles" fields with
      | Some arr => arr
      | None =>
          match lookup "data" fields with
          | Some arr => arr
          | None => JArr []
          end
      end
  | JArr _ => j
  | _ => JArr []
  end.

Definition fetch_dhan_candles (w : world) (symbol token : string)
  : M (option frame) :=
  j <- safe_get_json w symbol default_retries ;;
  if negb (truthy j) then ret None
  else
    let arr := candles_of j in
    n <- lift (py_len arr) ;;
    if (n =? 0)%nat then ret None
    else df <- lift (candles_frame w arr) ;; ret (Some df).

(** ** [fetch_yfinance] *)

Fixpoint has_dot (s : string) : bool :=
  match s with
  | EmptyString => false
  | String c s' => if Ascii.eqb c "."%char then true else has_dot s'
  end.

Definition fetch_yfinance (w : world) (symbol : string) : M (option frame) :=
  let ticker := if has_dot symbol then symbol else (symbol ++ ".NS")%string in
  df <- do_history w ticker ;;
  match df with
  | [] => ret None
  | _ => ret (Some df)
  end.

(** ** [get_history] *)

Definition token_set (dhan_token : option string) : option string :=
  match dhan_token with
  | Some t => if nonempty_str t then Some t else None
  | None => None
  end.

Definition get_history (w : world) (symbol : string)
  (dhan_token : option string) : M (option frame) :=
  match token_set dhan_token with
  | Some t =>
      primary <- try_except (fetch_dhan_candles w symbol t)
                            (fun _ => ret None) ;;
      match primary with
      | Some ((_ :: _) as df) => ret (Some df)
      | _ => fetch_yfinance w symbol
      end
  | None => fetch_yfinance w symbol
  end.

(** ** [analyze_universe] *)

(** A dictionary appended to a horizon's pool: the score with its symbol and
    horizon. *)
Record entry : Type := mkEntry {
  symbol : string;
  horizon : Z;
  scores : HorizonScore
}.

(** A row of a horizon's sheet. *)
Record RankedCandidate : Type := mkCandidate {
  cand : entry;
  prob_est : float;
  stop_loss_est : option float;
  target_price_est : option float;
  reason : string
}.

(** [results]: the pools, keyed by horizon, in the order of
    [HORIZONS_MONTHS]. *)
Definition pools : Type := list (Z * list entry).

Definition empty_pools : pools := map (fun h => (h, [])) HORIZONS_MONTHS.

(** [results[h]] *)
Fixpoint pool_of (h : Z) (results : pools) : list entry :=
  match results with
  | [] => []
  | (h', rows) :: results' =>
      if (h =? h')%Z then rows else pool_of h results'
  end.

(** [results[h].append(e)] *)
Fixpoint pool_append (h : Z) (e : entry) (results : pools) : pools :=
  match results with
  | [] => []
  | (h', rows) :: results' =>
      if (h =? h')%Z then (h', rows ++ [e]) :: results'
      else (h', rows) :: pool_append h e results'
  end.

(** The loop [for h in HORIZONS_MONTHS] of one symbol.  The pools are
    mutated in place: what was appended before an exception stays. *)
Fixpoint score_horizons (df : iframe) (sym : string) (hs : list Z)
  (results : pools) : result unit * pools :=
  match hs with
  | [] => (Ok tt, results)
  | h :: hs' =>
      match score_for_horizon (Some df) h with
      | Raise e => (Raise e, results)
      | Ok None => score_horizons df sym hs' results
      | Ok (Some sc) =>
          score_horizons df sym hs' (pool_append h (mkEntry sym h sc) results)
      end
  end.

(** The body of [for sym in symbols] with its [try ... except Exception:
    continue]. *)
Definition scan_symbol (w : world) (dhan_token : option string)
  (results : pools) (sym : string) : M pools :=
  fun s =>
    match get_history w sym dhan_token s with
    | (Raise _, s') => (Ok results, s')
    | (Ok None, s') => (Ok results, s')
    | (Ok (Some df), s') =>
        let df' := compute_indicators (pandas_pad w) df in
        (Ok (snd (score_horizons df' sym HORIZONS_MONTHS results)), s')
    end.

Fixpoint scan (w : world) (dhan_token : option string) (symbols : list string)
  (results : pools) : M pools :=
  match symbols with
  | [] => ret results
  | sym :: symbols' =>
      results' <- scan_symbol w dhan_token results sym ;;
      scan w dhan_token symbols' results'
  end.

(** [sub.iloc[-1]] of a frame that is not empty. *)
Definition iloc_last (r0 : ibar) (rest : iframe) : ibar := last rest r0.

Definition compute_target (w : world) (dhan_token : option string)
  (sym : string) : M (option float) :=
  sub <- get_history w sym dhan_token ;;
  match sub with
  | None | Some [] => ret None
  | Some rows =>
      match compute_indicators (pandas_pad w) rows with
      | [] => ret None
      | r0 :: rest =>
          let last_ := iloc_last r0 rest in
          if isna (close (base last_)) then ret None
          else ret (Some (fmul (close (base last_)) (Fin 3)))
      end
  end.

Definition compute_stop (w : world) (dhan_token : option string)
  (sym : string) : M (option float) :=
  sub <- get_history w sym dhan_token ;;
  match sub with
  | None | Some [] => ret None
  | Some rows =>
      match compute_indicators (pandas_pad w) rows with
      | [] => ret None
      | r0 :: rest =>
          let last_ := iloc_last r0 rest in
          if isna (atr last_) then ret None
          else ret (Some (fsub (close (base last_))
                               (fmul (Fin (15 / 10)) (atr last_))))
      end
  end.

Definition EPS : float := Fin (1 / 1000000000).

(** The [prob_est] column of a pool that is not empty. *)
Definition prob_column (rows : list entry) : list float :=
  let col := map (fun e => score (scores e)) rows in
  let mn := nanmin col in
  let mx := nanmax col in
  if flt (fabs (fsub mx mn)) EPS then map (fun _ => Fin (5 / 10)) col
  else map (fun sc => fdiv (fsub sc mn) (fsub mx mn)) col.

(** Rows of [l] at the positions [order], in that order. *)
Definition take_rows {A} (order : list nat) (l : list A) : list A :=
  flat_map (fun i => match nth_error l i with
                     | Some a => [a]
                     | None => []
                     end) order.

(** [dfh.sort_values("prob_est", ascending=False).head(10)] *)
Definition top10 (w : world) (rows : list entry) : list (entry * float) :=
  let probs := prob_column rows in
  firstn 10 (take_rows (sort_values w probs) (combine rows probs)).

(** One iteration of [for h in HORIZONS_MONTHS] of the second part:
    [top_lists[h]]. *)
Definition top_list (w : world) (dhan_token : option string)
  (rows : list entry) : M (list RankedCandidate) :=
  match rows with
  | [] => ret []
  | _ =>
      let dfh := top10 w rows in
      stops <- mapM (compute_stop w dhan_token)
                    (map (fun p => symbol (fst p)) dfh) ;;
      targets <- mapM (compute_target w dhan_token)
                      (map (fun p => symbol (fst p)) dfh) ;;
      ret (map (fun q =>
                  mkCandidate (fst (fst q)) (snd (fst q))
                              (fst (snd q)) (snd (snd q))
                              (reason_text w (scores (fst (fst q)))))
               (combine dfh (combine stops targets)))
  end.

Fixpoint top_lists (w : world) (dhan_token : option string) (hs : list Z)
  (results : pools) : M (list (Z * list RankedCandidate)) :=
  match hs with
  | [] => ret []
  | h :: hs' =>
      top <- top_list w dhan_token (pool_of h results) ;;
      tops <- top_lists w dhan_token hs' results ;;
      ret ((h, top) :: tops)
  end.

(** A sheet of the workbook: the header [symbol] alone for an empty horizon,
    else the nine columns of each row. *)
Inductive sheet : Type :=
| HeaderOnly
| Table (rows : list RankedCandidate).

Definition str_of_Z (z : Z) : string :=
  DecimalString.NilZero.string_of_int (Z.to_int z).

Definition sheet_of (p : Z * list RankedCandidate) : string * sheet :=
  ((str_of_Z (fst p) ++ "m")%string,
   match snd p with
   | [] => HeaderOnly
   | rows => Table rows
   end).

(** What a run hands back: the name of the workbook, the workbook written
    under that name, and the counts per horizon. *)
Record outcome : Type := mkOutcome {
  out_file : string;
  workbook : list (string * sheet);
  counts : list (Z * nat)
}.

Definition analyze_universe (w : world) (symbols : list string)
  (use_dhan use_news : bool) (news_key : option string)
  (min_avg_vol : float) : M outcome :=
  dhan_token <-
    (if use_dhan then lift (get_secret w "DHAN_TOKEN") else ret None) ;;
  results <- scan w dhan_token symbols empty_pools ;;
  tops <- top_lists w dhan_token HORIZONS_MONTHS results ;;
  ret (mkOutcome
         ("top_stocks_" ++ str_of_Z (time_now w) ++ ".xlsx")%string
         (map sheet_of tops)
         (map (fun h => (h, length (pool_of h results))) HORIZONS_MONTHS)).

(** ** What the source relies on from [sort_values]

    [sort_values("prob_est", ascending=False)] is called with pandas' default
    [kind='quicksort'], which pandas documents as not stable, and the default
    [na_position='last'].  The source therefore fixes the order of the rows
    only up to the order of rows with equal [prob_est]: the rows come back
    permuted, by descending [prob_est], the [NaN] ones last. *)

(** [a] has to come before [b]. *)
Definition goes_before (a b : float) : bool :=
  negb (isna a) && (isna b || flt b a).

(** No row has to come before a row that precedes it. *)
Definition descending (col : list float) : Prop :=
  StronglySorted (fun a b => goes_before b a = false) col.

Definition sort_values_spec (w : world) : Prop :=
  forall col : list float,
    Permutation (sort_values w col) (seq 0 (length col)) /\
    descending (take_rows (sort_values w col) col).



(** *** Two sorts that meet [sort_values_spec]

    Both are insertion sorts of the positions.  The first puts a position
    before the positions of equal key that follow it in the frame (a stable
    sort), the second puts it after them. *)

Fixpoint insert_first (col : list float) (i : nat) (l : list nat) : list nat :=
  match l with
  | [] => [i]
  | j :: l' =>
      if goes_before (nth j col NaN) (nth i col NaN)
      then j :: insert_first col i l'
      else i :: l
  end.

Definition stable_order (col : list float) : list nat :=
  fold_right (insert_first col) [] (seq 0 (length col)).



(** ** Sample data *)

(** A bar whose four prices are [c]. *)
Definition flat_bar (d : Z) (c v : float) : bar := mkBar d c c c c v.

(** [n] bars on the days [1 .. n], all with price [c] and volume [v]. *)
Definition flat_frame (n : nat) (c v : float) : frame :=
  map (fun k => flat_bar (Z.of_nat k) c v) (seq 1 n).

(** A world with no credentials, whose primary provider is down, and whose
    fallback provider and sort are given. *)
Definition offline_world (yf : nat -> string -> result frame)
  (order : list float -> list nat) : world :=
  mkWorld (fun _ => None) (Raise ValueError) (Raise RuntimeError)
          (fun _ _ => Raise ConnectionError) (fun _ => Raise ValueError)
          yf 1700000000%Z true order (fun _ => EmptyString).

(** The fallback provider always answers with the same frame. *)
Definition steady (df : frame) : nat -> string -> result frame :=
  fun _ _ => Ok df.

(** The fallback provider answers the first call and fails afterwards. *)
Definition flaky (df : frame) : nat -> string -> result frame :=
  fun k _ => match k with O => Ok df | S _ => Raise ConnectionError end.

(** Ten days at price 100 with 50,000 shares a day. *)
Definition liquid_frame : frame := flat_frame 10 (Fin 100) (Fin 50000).

(** Ten days at price 100 with 40,000 shares a day. *)
Definition thin_frame : frame := flat_frame 10 (Fin 100) (Fin 40000).

(** Ten days without any price, with 50,000 shares a day. *)
Definition priceless_frame : frame := flat_frame 10 NaN (Fin 50000).

(** Two days closing at 100 and 110. *)
Definition two_bar_frame : frame :=
  [flat_bar 1 (Fin 100) (Fin 50000); flat_bar 2 (Fin 110) (Fin 50000)].






(** ** Statements about a pool *)



(** The candidates of a sheet with their [prob_est], row by row. *)
Definition sheet_rows (sheet : list RankedCandidate) : list (entry * float) :=
  map (fun c => (cand c, prob_est c)) sheet.


(** Worlds that differ in the sort only. *)
Definition stable_world : world :=
  offline_world (steady liquid_frame) stable_order.


(** ** Statements about the latest bar *)

(** [|high - low|] of each bar. *)
Definition true_ranges (df : frame) : list float :=
  map (fun b => fabs (fsub (high b) (low b))) df.

Definition latest_close (df : frame) : float := close (last df nan_bar).

(** The mean true range of the last 14 bars (of all bars when there are
    fewer). *)
Definition latest_atr (df : frame) : float :=
  nanmean (window 14 (length df - 1) (true_ranges df)).


(** ** Statements about the recent window *)

(** The rows within [months * 30] days of the latest date. *)
Definition recent_window (rows : iframe) (months : Z) : iframe :=
  match rows with
  | [] => []
  | r0 :: rest =>
      let end_ := index_max (idate r0) (map idate rest) in
      filter (fun r => (end_ - months * 30 <=? idate r)%Z) rows
  end.

(** The mean volume over the recent window. *)
Definition window_mean_volume (rows : iframe) (months : Z) : float :=
  nanmean (map (fun r => volume (base r)) (recent_window rows months)).

(** The standard deviation of the daily returns over the recent window. *)
Definition window_std (rows : iframe) (months : Z) : float :=
  nanstd (map ret_1d (recent_window rows months)).

(** First and last close of the recent window. *)
Definition window_first_close (rows : iframe) (months : Z) : float :=
  match recent_window rows months with
  | [] => NaN
  | first :: _ => close (base first)
  end.

Definition window_last_close (rows : iframe) (months : Z) : float :=
  match recent_window rows months with
  | [] => NaN
  | first :: rest => close (base (last rest first))
  end.

(** The fallback provider has ten days of one symbol. *)
Definition thin_world : world :=
  offline_world (steady thin_frame) stable_order.

Definition flaky_world : world :=
  offline_world (flaky liquid_frame) stable_order.

(** The series has no close at all. *)
Definition closes_all_nan (rows : iframe) : Prop :=
  Forall (fun r => close (base r) = NaN) rows.


(** ** Statements about a run *)

(** The fallback provider never raises. *)
Definition fallback_answers (w : world) : Prop :=
  forall k ticker, exists df, yf_history w k ticker = Ok df.

(** ** Column mapping of [fetch_dhan_candles]

    The loop over [df.columns] that fills [col_map].  A column label is a
    string (rows given as objects) or an integer (rows given as arrays).
    Names are taken as ASCII. *)

Inductive label : Type :=
| LStr (name : string)
| LInt (position : Z).

(** [str.lower] *)
Definition lower_char (c : ascii) : ascii :=
  let n := nat_of_ascii c in
  if ((65 <=? n) && (n <=? 90))%nat then ascii_of_nat (n + 32) else c.

Fixpoint lower (s : string) : string :=
  match s with
  | EmptyString => EmptyString
  | String c s' => String (lower_char c) (lower s')
  end.

Fixpoint starts_with (p s : string) : bool :=
  match p, s with
  | EmptyString, _ => true
  | String _ _, EmptyString => false
  | String a p', String b s' => Ascii.eqb a b && starts_with p' s'
  end.

(** [p in s] *)
Fixpoint contains (p s : string) : bool :=
  starts_with p s ||
  match s with
  | EmptyString => false
  | String _ s' => contains p s'
  end.

(** The entry of [col_map] for the column [c], if any: the [if]s are not
    chained, so a later one overwrites an earlier one. *)
Definition column_target (c : string) : option string :=
  let lc := lower c in
  let t0 : option string := None in
  let t1 := if contains "open" lc then Some "open"%string else t0 in
  let t2 := if contains "high" lc then Some "high"%string else t1 in
  let t3 := if contains "low" lc then Some "low"%string else t2 in
  let t4 := if contains "close" lc || contains "last" lc
               || contains "closeprice" lc
            then Some "close"%string else t3 in
  let t5 := if contains "volume" lc then Some "volume"%string else t4 in
  if contains "date" lc || contains "time" lc || contains "timestamp" lc
  then Some "date"%string else t5.

(** How the loop ends: with [col_map], or with the [AttributeError] of
    [c.lower()] on a label that is not a string. *)
Inductive col_map_result : Type :=
| ColMap (entries : list (string * string))
| ColAttributeError.

Fixpoint build_col_map (columns : list label) : col_map_result :=
  match columns with
  | [] => ColMap []
  | LInt _ :: _ => ColAttributeError
  | LStr c :: rest =>
      match build_col_map rest with
      | ColAttributeError => ColAttributeError
      | ColMap entries =>
          match column_target c with
          | Some t => ColMap ((c, t) :: entries)
          | None => ColMap entries
          end
      end
  end.

(** ** The universe of [app_streamlit_top10.py] *)

Definition sample_universe : list string :=
  ["RELIANCE"; "TCS"; "HDFCBANK"; "INFY"; "ICICIBANK"; "HINDUNILVR";
   "KOTAKBANK"; "SBIN"; "BAJFINANCE"; "LT"]%string.

(** The universe the page settles on.  [uploaded] is the sidebar upload
    ([None]: nothing uploaded) and [nifty500] the file [nifty500.csv]
    ([None]: no such file); each is the [symbol] column read from the CSV,
    or the exception of reading it.  The result [None] is the Python
    [None]. *)
Definition choose_universe (uploaded nifty500 : option (result (list string)))
  : result (option (list string)) :=
  match uploaded with
  | Some (Ok symbols) => Ok (Some symbols)
  | Some (Raise _) => Ok None
  | None =>
      match nifty500 with
      | Some (Ok symbols) => Ok (Some symbols)
      | Some (Raise e) => Raise e
      | None => Ok (Some sample_universe)
      end
  end.

(** [len(universe)] of the line "Universe size". *)
Definition universe_size (universe : option (list string)) : result nat :=
  match universe with
  | Some symbols => Ok (length symbols)
  | None => Raise TypeError
  end.

(** The page up to the Refresh button: the universe and its size. *)
Definition page_universe (uploaded nifty500 : option (result (list string)))
  : result (list string * nat) :=
  match choose_universe uploaded nifty500 with
  | Raise e => Raise e
  | Ok universe =>
      match universe_size universe with
      | Raise e => Raise e
      | Ok n =>
          match universe with
          | Some symbols => Ok (symbols, n)
          | None => Raise TypeError
          end
      end
  end.

(** A click on Refresh: [analyze_universe(universe, use_dhan=True,
    use_news=use_news, min_avg_vol=min_vol)]. *)
Definition page_refresh (w : world)
  (uploaded nifty500 : option (result (list string)))
  (use_news : bool) (min_vol : float) : M outcome :=
  p <- lift (page_universe uploaded nifty500) ;;
  analyze_universe w (fst p) true use_news None min_vol.

(** ** More statements and sample data *)

(** The events of [k] failed attempts of [safe_get_json] that were not the
    last: each request is followed by the one-second sleep. *)
Fixpoint failed_attempts (symbol : string) (k : nat) : list event :=
  match k with
  | O => []
  | S k' => EvGet symbol :: EvSleep 1 :: failed_attempts symbol k'
  end.

(** The ticker that [fetch_yfinance] asks for. *)
Definition ticker_of (symbol : string) : string :=
  if has_dot symbol then symbol else (symbol ++ ".NS")%string.

(** High and low of every bar are finite numbers. *)
Definition ranges_finite (df : frame) : Prop :=
  Forall (fun b => is_finite (high b) /\ is_finite (low b)) df.

(** No close is [NaN]. *)
Definition closes_defined (df : frame) : Prop :=
  Forall (fun b => isna (close b) = false) df.

(** The number of rows of a sheet. *)
Definition sheet_length (sh : sheet) : nat :=
  match sh with
  | HeaderOnly => 0
  | Table rows => length rows
  end.

(** The primary provider answers every request with one candle, the frame
    builder turns it into ten liquid days. *)
Definition primary_world : world :=
  mkWorld (fun _ => None) (Raise ValueError) (Raise RuntimeError)
          (fun _ _ => Ok (JObj [("candles"%string, JArr [JNum (Fin 1)])]))
          (fun _ => Ok liquid_frame)
          (steady liquid_frame) 1700000000%Z true stable_order
          (fun _ => EmptyString).

(** The primary provider fails the first request and answers the second. *)
Definition recovering_world : world :=
  mkWorld (fun _ => None) (Raise ValueError) (Raise RuntimeError)
          (fun k _ => match k with
                      | O => Raise HTTPError
                      | S _ => Ok (JArr [JNum (Fin 1)])
                      end)
          (fun _ => Ok liquid_frame)
          (steady liquid_frame) 1700000000%Z true stable_order
          (fun _ => EmptyString).


(** * Properties *)

Local Open Scope R_scope.

(** ** Deciding comparisons of reals *)

Lemma rlt_true x y : x < y -> rlt x y = true.
Proof. intros H; unfold rlt; destruct (Rlt_dec x y); [reflexivity | contradiction]. Qed.

Lemma rlt_false x y : ~ x < y -> rlt x y = false.
Proof. intros H; unfold rlt; destruct (Rlt_dec x y); [contradiction | reflexivity]. Qed.

Lemma req_true x y : x = y -> req x y = true.
Proof. intros H; unfold req; destruct (Req_dec_T x y); [reflexivity | contradiction]. Qed.

Lemma req_false x y : x <> y -> req x y = false.
Proof. intros H; unfold req; destruct (Req_dec_T x y); [contradiction | reflexivity]. Qed.

(** Split on every comparison of reals in sight. *)
Ltac rcases :=
  unfold rlt, req in *;
  repeat match goal with
         | |- context [Rlt_dec ?a ?b] => destruct (Rlt_dec a b)
         | |- context [Req_dec_T ?a ?b] => destruct (Req_dec_T a b)
         | H : context [Rlt_dec ?a ?b] |- _ => destruct (Rlt_dec a b)
         | H : context [Req_dec_T ?a ?b] |- _ => destruct (Req_dec_T a b)
         end.

(** Settle the comparisons of reals that [lra] can settle. *)
Ltac rdecide :=
  repeat first
    [ rewrite rlt_true by lra | rewrite rlt_false by lra
    | rewrite req_true by lra | rewrite req_false by lra ].

(** ** Reductions over finite values *)

Lemma dropna_Fin (l : list R) : dropna (map Fin l) = map Fin l.
Proof. unfold dropna; induction l as [|x l IH]; simpl; [reflexivity | now rewrite IH]. Qed.







(** ** Min-max normalisation (claim C1) *)





(** ** The order of the rows *)

Lemma goes_before_asym a b : goes_before a b = true -> goes_before b a = false.
Proof.
  destruct a, b; simpl; try reflexivity; try discriminate.
  unfold goes_before; simpl. rcases; try reflexivity; try discriminate; lra.
Qed.

Lemma not_before_trans a b c :
  goes_before b a = false -> goes_before c b = false ->
  goes_before c a = false.
Proof.
  destruct a, b, c; unfold goes_before; simpl;
    try reflexivity; try discriminate.
  rcases; try reflexivity; try discriminate; lra.
Qed.

Section Insertion.
Variable col : list float.

Let key (i : nat) : float := nth i col NaN.
Let precedes (i j : nat) : Prop := goes_before (key j) (key i) = false.

Lemma insert_first_perm i l : Permutation (insert_first col i l) (i :: l).
Proof.
  induction l as [|j l IH]; simpl; [reflexivity|].
  destruct (goes_before _ _); [|reflexivity].
  rewrite IH. apply perm_swap.
Qed.


Lemma insert_first_sorted i l :
  StronglySorted precedes l -> StronglySorted precedes (insert_first col i l).
Proof.
  induction 1 as [|j l Hs IH Hall]; simpl.
  - repeat constructor.
  - destruct (goes_before (nth j col NaN) (nth i col NaN)) eqn:E.
    + constructor; [exact IH|].
      eapply Permutation_Forall; [symmetry; apply insert_first_perm|].
      constructor; [|exact Hall].
      now apply goes_before_asym.
    + constructor; [now constructor|].
      constructor; [exact E|].
      eapply Forall_impl; [|exact Hall].
      intros k Hk. unfold precedes, key in *.
      eapply not_before_trans; eassumption.
Qed.


Lemma fold_insert_first l :
  Permutation (fold_right (insert_first col) [] l) l /\
  StronglySorted precedes (fold_right (insert_first col) [] l).
Proof.
  induction l as [|i l [IH1 IH2]]; simpl; [split; constructor|].
  split; [rewrite insert_first_perm; now constructor
         | now apply insert_first_sorted].
Qed.


(** Rows taken at positions within the frame. *)
Lemma take_rows_nth (order : list nat) :
  Forall (fun i => (i < length col)%nat) order ->
  take_rows order col = map key order.
Proof.
  induction 1 as [|i order Hi _ IH]; [reflexivity|].
  unfold take_rows in *; simpl. rewrite IH.
  destruct (nth_error col i) eqn:E.
  - simpl. unfold key. now rewrite (nth_error_nth _ _ _ E).
  - apply nth_error_None in E. lia.
Qed.

Lemma sorted_positions_descending (order : list nat) :
  Permutation order (seq 0 (length col)) ->
  StronglySorted precedes order ->
  descending (take_rows order col).
Proof.
  intros Hp Hs. rewrite take_rows_nth.
  - unfold descending. clear Hp.
    induction Hs as [|i l Hs IH Hall]; simpl; constructor.
    + exact IH.
    + rewrite Forall_map. exact Hall.
  - apply Forall_forall. intros i Hi.
    apply (Permutation_in _ Hp), in_seq in Hi. lia.
Qed.
End Insertion.

Lemma stable_order_spec (col : list float) :
  Permutation (stable_order col) (seq 0 (length col)) /\
  descending (take_rows (stable_order col) col).
Proof.
  destruct (fold_insert_first col (seq 0 (length col))) as [Hp Hs].
  split; [exact Hp | now apply sorted_positions_descending].
Qed.


Lemma stable_world_spec : sort_values_spec stable_world.
Proof. intros col. apply stable_order_spec. Qed.


(** ** Top-10 selection (claim C5) *)

Lemma take_rows_perm {A} (o o' : list nat) (l : list A) :
  Permutation o o' -> Permutation (take_rows o l) (take_rows o' l).
Proof.
  unfold take_rows. induction 1; simpl.
  - reflexivity.
  - now apply Permutation_app_head.
  - rewrite !app_assoc. apply Permutation_app_tail, Permutation_app_comm.
  - etransitivity; eassumption.
Qed.

Lemma take_rows_seq_from {A} (pre l : list A) :
  take_rows (seq (length pre) (length l)) (pre ++ l) = l.
Proof.
  revert pre; induction l as [|a l IH]; intros pre; [reflexivity|].
  unfold take_rows in *. simpl.
  rewrite nth_error_app2, Nat.sub_diag by lia. simpl. f_equal.
  specialize (IH (pre ++ [a])).
  rewrite length_app, <- app_assoc in IH. simpl in IH.
  now rewrite Nat.add_1_r in IH.
Qed.

Lemma take_rows_seq {A} (l : list A) : take_rows (seq 0 (length l)) l = l.
Proof. exact (take_rows_seq_from [] l). Qed.

Lemma take_rows_map {A B} (f : A -> B) (o : list nat) (l : list A) :
  map f (take_rows o l) = take_rows o (map f l).
Proof.
  unfold take_rows. induction o as [|i o IH]; [reflexivity|]. simpl.
  rewrite map_app, IH, nth_error_map.
  now destruct (nth_error l i).
Qed.

Lemma map_snd_combine_eq {A B} (l : list A) (l' : list B) :
  length l = length l' -> map snd (combine l l') = l'.
Proof.
  revert l'; induction l as [|a l IH]; intros [|b l'] H; try discriminate.
  - reflexivity.
  - simpl. f_equal. apply IH. now injection H.
Qed.

Lemma prob_column_length (rows : list entry) :
  length (prob_column rows) = length rows.
Proof.
  unfold prob_column. destruct (flt _ _); now rewrite length_map, length_map.
Qed.


(** The frame after [sort_values]: the same rows, by descending
    [prob_est]. *)
Lemma sorted_frame (w : world) (rows : list entry) :
  sort_values_spec w ->
  let dfh := combine rows (prob_column rows) in
  let sorted := take_rows (sort_values w (prob_column rows)) dfh in
  Permutation sorted dfh /\
  descending (map snd sorted) /\
  length sorted = length rows.
Proof.
  intros Hspec dfh sorted.
  set (probs := prob_column rows) in *.
  destruct (Hspec probs) as [Hperm Hdesc].
  assert (Hlen : length dfh = length rows).
  { unfold dfh. rewrite length_combine. unfold probs.
    rewrite prob_column_length. lia. }
  assert (Hsnd : map snd dfh = probs).
  { apply map_snd_combine_eq. unfold probs. now rewrite prob_column_length. }
  assert (Hall : Permutation sorted dfh).
  { unfold sorted. rewrite <- (take_rows_seq dfh) at 2. apply take_rows_perm.
    rewrite Hperm, Hlen. unfold probs. now rewrite prob_column_length. }
  split; [exact Hall|]. split.
  - unfold sorted. rewrite take_rows_map, Hsnd. exact Hdesc.
  - now rewrite (Permutation_length Hall).
Qed.

Lemma mapM_length {A B} (f : A -> M B) (l : list A) (s s' : state)
  (bs : list B) :
  mapM f l s = (Ok bs, s') -> length bs = length l.
Proof.
  revert s s' bs; induction l as [|a l IH]; intros s s' bs; simpl.
  - unfold ret. now intros [= <- _].
  - unfold bind at 1. destruct (f a s) as [[b|e] s1]; [|discriminate].
    unfold bind at 1. destruct (mapM f l s1) as [[bs'|e] s2] eqn:E;
      [|discriminate].
    unfold ret. intros [= <- _]. simpl. f_equal. eapply IH. exact E.
Qed.

Lemma map_fst_combine_eq {A B} (l : list A) (l' : list B) :
  length l = length l' -> map fst (combine l l') = l.
Proof.
  revert l'; induction l as [|a l IH]; intros [|b l'] H; try discriminate.
  - reflexivity.
  - simpl. f_equal. apply IH. now injection H.
Qed.

Lemma take_rows_nil {A} (order : list nat) : take_rows order (@nil A) = [].
Proof.
  unfold take_rows. induction order as [|i order IH]; [reflexivity|].
  simpl. rewrite IH. now destruct i.
Qed.

(** The sheet that [top_list] returns holds the rows of [top10], in their
    order. *)
Lemma top_list_rows (w : world) (tok : option string) (rows : list entry)
  (s s' : state) (sheet : list RankedCandidate) :
  top_list w tok rows s = (Ok sheet, s') -> sheet_rows sheet = top10 w rows.
Proof.
  unfold top_list. destruct rows as [|e rows].
  - unfold ret. intros [= <- _]. unfold top10. simpl combine.
    now rewrite take_rows_nil.
  - set (dfh := top10 w (e :: rows)).
    unfold bind at 1.
    destruct (mapM (compute_stop w tok) _ s) as [[st|x] s1] eqn:E1;
      [|discriminate].
    unfold bind at 1.
    destruct (mapM (compute_target w tok) _ s1) as [[tg|x] s2] eqn:E2;
      [|discriminate].
    unfold ret. intros [= <- _].
    apply mapM_length in E1. apply mapM_length in E2.
    rewrite length_map in E1, E2.
    unfold sheet_rows. rewrite map_map. simpl.
    rewrite <- (map_fst_combine_eq dfh (combine st tg)) at 2
      by (rewrite length_combine; lia).
    apply map_ext. now intros [[c p] q].
Qed.




(** ** Indicators (claim C8) *)

Lemma ffill_from_length a l : length (ffill_from a l) = length l.
Proof. revert a; induction l; intros; simpl; [reflexivity | now rewrite IHl]. Qed.

Lemma shift1_length l : length (shift1 l) = length l.
Proof. unfold shift1. rewrite length_firstn. simpl. lia. Qed.

Lemma pct_change_length pad l : length (pct_change pad l) = length l.
Proof.
  unfold pct_change. rewrite length_map, length_combine, shift1_length.
  destruct pad; [unfold ffill; rewrite ffill_from_length|]; lia.
Qed.

Lemma rolling_length w f l : length (rolling w f l) = length l.
Proof. unfold rolling. now rewrite length_map, length_seq. Qed.

Lemma rolling_nth w f l t :
  (t < length l)%nat -> nth t (rolling w f l) NaN = f (window w t l).
Proof.
  intros Ht. unfold rolling.
  rewrite (nth_indep _ NaN (f (window w 0 l)))
    by (now rewrite length_map, length_seq).
  rewrite (map_nth (fun t => f (window w t l))), seq_nth by lia.
  reflexivity.
Qed.

Lemma compute_indicators_length pad df :
  length (compute_indicators pad df) = length df.
Proof. unfold compute_indicators. now rewrite length_map, length_seq. Qed.

(** A row of [compute_indicators], column by column. *)
Lemma compute_indicators_nth pad df t r :
  nth_error (compute_indicators pad df) t = Some r ->
  (t < length df)%nat /\
  nth_error df t = Some (base r) /\
  ret_1d r = nth t (pct_change pad (map close df)) NaN /\
  tr r = nth t (true_ranges df) NaN /\
  atr r = nanmean (window 14 t (true_ranges df)) /\
  volatility_annual r =
    fmul (nanstd (window 21 t (pct_change pad (map close df)))) sqrt252.
Proof.
  intros H.
  assert (Ht : (t < length df)%nat).
  { rewrite <- (compute_indicators_length pad df).
    apply nth_error_Some. congruence. }
  unfold compute_indicators in H.
  rewrite nth_error_map, nth_error_seq in H.
  destruct (Nat.ltb_spec t (length df)) as [_|]; [|lia].
  simpl in H. injection H as <-. simpl.
  split; [exact Ht|]. split; [|split; [reflexivity|split; [reflexivity|split]]].
  - apply nth_error_nth'. exact Ht.
  - unfold rolling_mean. apply rolling_nth.
    unfold true_ranges. now rewrite length_map.
  - unfold rolling_std.
    rewrite (nth_indep _ NaN (fmul NaN sqrt252))
      by (now rewrite length_map, rolling_length, pct_change_length, length_map).
    rewrite (map_nth (fun s => fmul s sqrt252)).
    rewrite rolling_nth; [reflexivity|].
    now rewrite pct_change_length, length_map.
Qed.






(** ** Target price and stop loss (claim C6) *)

Lemma last_cons {A} (a d : A) (l : list A) : last (a :: l) d = last l a.
Proof.
  revert a d; induction l as [|b l IH]; intros a d; [reflexivity|].
  change (last (a :: b :: l) d) with (last (b :: l) d).
  now rewrite (IH b d), (IH b a).
Qed.

Lemma last_nth_error {A} (l : list A) (d : A) :
  l <> [] -> nth_error l (length l - 1) = Some (last l d).
Proof.
  induction l as [|a l IH]; [congruence|]; intros _.
  destruct l as [|b l]; [reflexivity|].
  change (last (a :: b :: l) d) with (last (b :: l) d).
  rewrite <- IH by discriminate. simpl. now rewrite Nat.sub_0_r.
Qed.

(** The last row of [compute_indicators] carries the latest close and the
    latest average true range. *)
Lemma latest_row (pad : bool) (rows : frame) :
  rows <> [] ->
  exists r0 rest,
    compute_indicators pad rows = r0 :: rest /\
    close (base (iloc_last r0 rest)) = latest_close rows /\
    atr (iloc_last r0 rest) = latest_atr rows.
Proof.
  intros Hne.
  destruct (compute_indicators pad rows) as [|r0 rest] eqn:E.
  { apply (f_equal (@length _)) in E. rewrite compute_indicators_length in E.
    destruct rows; [congruence | discriminate]. }
  exists r0, rest. split; [reflexivity|].
  assert (Hl : nth_error (compute_indicators pad rows) (length rows - 1)
               = Some (iloc_last r0 rest)).
  { rewrite <- (compute_indicators_length pad rows), E.
    unfold iloc_last. rewrite <- (last_cons r0 r0 rest).
    apply last_nth_error. discriminate. }
  destruct (compute_indicators_nth _ _ _ Hl) as (_ & Hb & _ & _ & Ha & _).
  rewrite (last_nth_error nan_bar Hne) in Hb. injection Hb as Hb.
  split; [unfold latest_close; now rewrite Hb | exact Ha].
Qed.






(** ** [score_for_horizon] (claims C3, C4 and C7) *)

(** The mean volume of a window that passed the liquidity gate is in the
    domain of [log1p]. *)
Lemma log1p_after_gate (avg : float) :
  isna avg || flt avg MIN_AVG_VOLUME = false ->
  exists lg, log1p avg = Ok lg /\
             (forall v, avg = Fin v -> 30000 <= v /\ lg = Fin (ln (1 + v))).
Proof.
  destruct avg as [| | |v]; simpl; try discriminate.
  - intros _. exists PInf. split; [reflexivity | discriminate].
  - intros H. unfold MIN_AVG_VOLUME in H. simpl in H.
    assert (Hv : 30000 <= v) by (rcases; [discriminate | lra]).
    exists (Fin (ln (1 + v))). rewrite rlt_true by lra.
    split; [reflexivity|]. intros v' [= <-]. now split.
Qed.

(** [score_for_horizon], gate by gate. *)
Lemma score_for_horizon_unfold (rows : iframe) (months : Z) :
  score_for_horizon (Some rows) months =
    if (length (recent_window rows months) <? 10)%nat then Ok None
    else
      let avg := window_mean_volume rows months in
      if isna avg || flt avg MIN_AVG_VOLUME then Ok None
      else
        match log1p avg with
        | Raise e => Raise e
        | Ok lg =>
            let total_return :=
              fsub (fdiv (window_last_close rows months)
                         (window_first_close rows months)) (Fin 1) in
            let vol := fmul (window_std rows months) sqrt252 in
            Ok (Some (mkScore total_return vol avg
                        (fadd (fsub (fmul total_return (Fin 1))
                                    (fmul vol VOL_PENALTY))
                              (fmul lg LOGVOL_WEIGHT))))
        end.
Proof.
  unfold window_mean_volume, window_std, window_last_close,
    window_first_close.
  destruct rows as [|r0 rest]; [reflexivity|].
  unfold score_for_horizon, recent_window.
  set (recent := filter _ (r0 :: rest)).
  destruct recent as [|first more]; [reflexivity|].
  unfold Series_std. rewrite last_cons. reflexivity.
Qed.


Lemma recent_window_incl (rows : iframe) (months : Z) (r : ibar) :
  In r (recent_window rows months) -> In r rows.
Proof.
  destruct rows as [|r0 rest]; [intros []|].
  unfold recent_window. intros H. now apply filter_In in H.
Qed.

Lemma last_In {A} (l : list A) (d : A) : In (last l d) (d :: l).
Proof.
  revert d; induction l as [|a l IH]; intros d; [now left|].
  rewrite last_cons. right. apply IH.
Qed.

Lemma recent_window_first_last (rows : iframe) (months : Z) :
  recent_window rows months <> [] ->
  (exists r, In r rows /\ window_first_close rows months = close (base r)) /\
  (exists r, In r rows /\ window_last_close rows months = close (base r)).
Proof.
  intros Hne. unfold window_first_close, window_last_close.
  pose proof (recent_window_incl rows months) as Hin.
  destruct (recent_window rows months) as [|first more]; [congruence|].
  split.
  - exists first. split; [apply Hin; now left | reflexivity].
  - exists (last more first). split; [|reflexivity].
    apply Hin. apply last_In.
Qed.

(** A series without any close that passes the two gates is scored, with
    an undefined return and an undefined composite score. *)
Lemma score_without_closes (rows : iframe) (months : Z) :
  closes_all_nan rows ->
  (length (recent_window rows months) <? 10)%nat = false ->
  isna (window_mean_volume rows months)
  || flt (window_mean_volume rows months) MIN_AVG_VOLUME = false ->
  score_for_horizon (Some rows) months =
    Ok (Some (mkScore NaN (fmul (window_std rows months) sqrt252)
                      (window_mean_volume rows months) NaN)).
Proof.
  intros Hnan Hlen G. rewrite score_for_horizon_unfold, Hlen. cbv zeta.
  rewrite G. destruct (log1p_after_gate _ G) as (lg & -> & _).
  assert (Hne : recent_window rows months <> []).
  { destruct (recent_window rows months); [discriminate Hlen | discriminate]. }
  destruct (recent_window_first_last rows months Hne)
    as [(r1 & I1 & E1) (r2 & I2 & E2)].
  unfold closes_all_nan in Hnan. rewrite Forall_forall in Hnan.
  rewrite E1, E2, (Hnan r1 I1), (Hnan r2 I2). reflexivity.
Qed.


(** *** The columns of [compute_indicators] *)

Lemma map_nth_seq {A B} (f : A -> B) (l : list A) (d : A) :
  map (fun t => f (nth t l d)) (seq 0 (length l)) = map f l.
Proof.
  apply (nth_ext _ _ (f d) (f d)).
  - now rewrite !length_map, length_seq.
  - intros n Hn. rewrite length_map, length_seq in Hn.
    rewrite (map_nth f).
    rewrite (nth_indep _ (f d) ((fun t => f (nth t l d)) 0%nat))
      by (now rewrite length_map, length_seq).
    rewrite (map_nth (fun t => f (nth t l d))), seq_nth by lia.
    reflexivity.
Qed.

Lemma compute_indicators_base (pad : bool) (df : frame) :
  map base (compute_indicators pad df) = df.
Proof.
  unfold compute_indicators. rewrite map_map. simpl.
  rewrite (map_nth_seq (fun b => b)). apply map_id.
Qed.

Lemma compute_indicators_ret_1d (pad : bool) (df : frame) :
  map ret_1d (compute_indicators pad df) = pct_change pad (map close df).
Proof.
  unfold compute_indicators. rewrite map_map. simpl.
  replace (length df) with (length (pct_change pad (map close df)))
    by (now rewrite pct_change_length, length_map).
  rewrite (map_nth_seq (fun a => a)). apply map_id.
Qed.

(** A frame whose bars all lie in the window is its own recent window. *)
Lemma recent_window_all (rows : iframe) (months : Z) :
  forallb (fun d => (fold_left Z.max (map idate rows) (hd 0%Z (map idate rows))
                     - months * 30 <=? d)%Z) (map idate rows) = true ->
  recent_window rows months = rows.
Proof.
  destruct rows as [|r0 rest]; [reflexivity|].
  intros H. unfold recent_window. apply forallb_filter_id.
  rewrite forallb_forall in *. intros r Hr.
  assert (E : fold_left Z.max (map idate (r0 :: rest))
                        (hd 0%Z (map idate (r0 :: rest)))
              = index_max (idate r0) (map idate rest)).
  { unfold index_max. simpl. now rewrite Z.max_id. }
  rewrite <- E. apply H. now apply in_map.
Qed.

Lemma idate_compute_indicators (pad : bool) (df : frame) :
  map idate (compute_indicators pad df) = map date df.
Proof.
  rewrite <- (compute_indicators_base pad df) at 2.
  now rewrite map_map.
Qed.

(** Ten flat bars all lie in the window of every horizon of the program. *)
Lemma flat_frame_recent (pad : bool) (c v : float) (months : Z) :
  In months HORIZONS_MONTHS ->
  recent_window (compute_indicators pad (flat_frame 10 c v)) months
  = compute_indicators pad (flat_frame 10 c v).
Proof.
  intros H. apply recent_window_all. rewrite idate_compute_indicators.
  simpl in H.
  destruct H as [<-|[<-|[<-|[<-|[<-|[]]]]]]; reflexivity.
Qed.

Lemma flat_frame_mean_volume (pad : bool) (c : float) (v : R) (months : Z) :
  In months HORIZONS_MONTHS ->
  window_mean_volume (compute_indicators pad (flat_frame 10 c (Fin v))) months
  = Fin v.
Proof.
  intros H. unfold window_mean_volume. rewrite (flat_frame_recent pad c (Fin v) H).
  rewrite <- (map_map base volume), compute_indicators_base.
  cbn. rdecide. f_equal. field.
Qed.

(** *** Ten days without a price *)

Lemma priceless_closes (pad : bool) :
  closes_all_nan (compute_indicators pad priceless_frame).
Proof.
  unfold closes_all_nan. rewrite <- Forall_map with (f := base) (P := fun b => close b = NaN).
  rewrite compute_indicators_base. repeat constructor.
Qed.

Lemma priceless_std (pad : bool) :
  window_std (compute_indicators pad priceless_frame) 6 = NaN.
Proof.
  unfold window_std, priceless_frame.
  rewrite flat_frame_recent by (simpl; auto).
  rewrite compute_indicators_ret_1d. now destruct pad.
Qed.

Lemma priceless_score (pad : bool) :
  score_for_horizon (Some (compute_indicators pad priceless_frame)) 6 =
    Ok (Some (mkScore NaN NaN (Fin 50000) NaN)).
Proof.
  assert (Hin : In 6%Z HORIZONS_MONTHS) by (simpl; auto).
  assert (Hv : window_mean_volume (compute_indicators pad priceless_frame) 6
               = Fin 50000) by (now apply flat_frame_mean_volume).
  rewrite score_without_closes.
  - now rewrite priceless_std, Hv.
  - apply priceless_closes.
  - unfold priceless_frame. rewrite flat_frame_recent by exact Hin.
    now rewrite compute_indicators_length.
  - rewrite Hv. simpl. unfold MIN_AVG_VOLUME. simpl. now rdecide.
Qed.


(** What a returned score holds, field by field. *)
Lemma score_fields (rows : iframe) (months : Z) (hs : HorizonScore) :
  score_for_horizon (Some rows) months = Ok (Some hs) ->
  return_ hs = fsub (fdiv (window_last_close rows months)
                          (window_first_close rows months)) (Fin 1) /\
  volatility hs = fmul (window_std rows months) sqrt252 /\
  avg_vol hs = window_mean_volume rows months /\
  exists lg,
    log1p (avg_vol hs) = Ok lg /\
    score hs = fadd (fsub (fmul (return_ hs) (Fin 1))
                          (fmul (volatility hs) (Fin (5 / 10))))
                    (fmul lg (Fin (5 / 1000))).
Proof.
  rewrite score_for_horizon_unfold.
  destruct (_ <? _)%nat; [discriminate|]. cbv zeta.
  destruct (isna _ || flt _ _) eqn:G; [discriminate|].
  destruct (log1p_after_gate _ G) as (lg & E & _). rewrite E.
  intros [= <-]. simpl. repeat split. now exists lg.
Qed.

(** C7 at the failing input: over ten days without a price the standard
    deviation of the daily returns is undefined, and the score that
    [score_for_horizon] returns carries the volatility [NaN], not 0,
    whether pandas pads or not. *)
Theorem volatility_of_undefined_deviation (pad : bool) :
  window_std (compute_indicators pad priceless_frame) 6 = NaN /\
  exists hs,
    score_for_horizon (Some (compute_indicators pad priceless_frame)) 6
      = Ok (Some hs) /\
    volatility hs = NaN /\ volatility hs <> Fin 0.
Proof.
  split; [apply priceless_std|].
  eexists. split; [apply priceless_score|]. simpl. split; [reflexivity | discriminate].
Qed.

(** ** Runs of [analyze_universe] *)

(** With the fallback provider answering, [get_history] returns: a failure
    of the primary provider is caught. *)
Lemma get_history_returns (w : world) (sym : string) (tok : option string)
  (s : state) :
  fallback_answers w ->
  exists r s', get_history w sym tok s = (Ok r, s').
Proof.
  intros Hc.
  assert (Hy : forall s0, exists r s', fetch_yfinance w sym s0 = (Ok r, s')).
  { intros s0. unfold fetch_yfinance, bind, do_history.
    destruct (Hc (n_history s0)
                 (if has_dot sym then sym else (sym ++ ".NS")%string))
      as [df ->].
    destruct df; unfold ret; eauto. }
  unfold get_history. destruct (token_set tok) as [t|]; [|apply Hy].
  unfold bind, try_except.
  destruct (fetch_dhan_candles w sym t s) as [[[[|b df]|]|e] s1]; simpl;
    try apply Hy; unfold ret; eauto.
Qed.

(** The main scan returns whatever the providers do: an exception while a
    symbol is processed ends that symbol only. *)
Lemma scan_returns (w : world) (tok : option string) (symbols : list string)
  (results : pools) (s : state) :
  exists r s', scan w tok symbols results s = (Ok r, s').
Proof.
  revert results s; induction symbols as [|sym symbols IH]; intros results s.
  - simpl. unfold ret. eauto.
  - simpl. unfold bind at 1.
    assert (H : exists r s', scan_symbol w tok results sym s = (Ok r, s')).
    { unfold scan_symbol.
      destruct (get_history w sym tok s) as [[[df|]|e] s1]; eauto. }
    destruct H as (r & s1 & ->). apply IH.
Qed.

Lemma mapM_returns {A B} (f : A -> M B) (l : list A) (s : state) :
  (forall a s0, exists b s', f a s0 = (Ok b, s')) ->
  exists bs s', mapM f l s = (Ok bs, s').
Proof.
  intros Hf. revert s; induction l as [|a l IH]; intros s; simpl.
  - unfold ret. eauto.
  - unfold bind at 1. destruct (Hf a s) as (b & s1 & ->).
    unfold bind at 1. destruct (IH s1) as (bs & s2 & ->).
    unfold ret. eauto.
Qed.

Lemma compute_stop_returns (w : world) (tok : option string) (sym : string)
  (s : state) :
  fallback_answers w -> exists r s', compute_stop w tok sym s = (Ok r, s').
Proof.
  intros Hc. unfold compute_stop, bind.
  destruct (get_history_returns sym tok s Hc) as (r & s1 & ->).
  destruct r as [[|b rows]|]; unfold ret; eauto.
  destruct (compute_indicators _ _); eauto.
  destruct (isna _); eauto.
Qed.

Lemma compute_target_returns (w : world) (tok : option string) (sym : string)
  (s : state) :
  fallback_answers w -> exists r s', compute_target w tok sym s = (Ok r, s').
Proof.
  intros Hc. unfold compute_target, bind.
  destruct (get_history_returns sym tok s Hc) as (r & s1 & ->).
  destruct r as [[|b rows]|]; unfold ret; eauto.
  destruct (compute_indicators _ _); eauto.
  destruct (isna _); eauto.
Qed.

Lemma top_list_returns (w : world) (tok : option string) (rows : list entry)
  (s : state) :
  fallback_answers w -> exists r s', top_list w tok rows s = (Ok r, s').
Proof.
  intros Hc. unfold top_list. destruct rows as [|e rows]; [unfold ret; eauto|].
  set (syms := map _ (top10 w (e :: rows))).
  unfold bind at 1.
  destruct (@mapM_returns _ _ (compute_stop w tok) syms s) as (st & s1 & ->);
    [intros; now apply compute_stop_returns|].
  unfold bind at 1.
  destruct (@mapM_returns _ _ (compute_target w tok) syms s1) as (tg & s2 & ->);
    [intros; now apply compute_target_returns|].
  unfold ret. eauto.
Qed.

Lemma top_lists_returns (w : world) (tok : option string) (hs : list Z)
  (results : pools) (s : state) :
  fallback_answers w ->
  exists r s', top_lists w tok hs results s = (Ok r, s').
Proof.
  intros Hc. revert s; induction hs as [|h hs IH]; intros s; simpl.
  - unfold ret. eauto.
  - unfold bind at 1.
    destruct (top_list_returns tok (pool_of h results) s Hc) as (t & s1 & ->).
    unfold bind at 1. destruct (IH s1) as (ts & s2 & ->).
    unfold ret. eauto.
Qed.

(** A run without Dhan returns when the fallback provider answers, and its
    counts are the sizes of the pools of the main scan. *)
Lemma analyze_universe_returns (w : world) (symbols : list string)
  (use_news : bool) (news_key : option string) (min_avg_vol : float)
  (s : state) :
  fallback_answers w ->
  exists results s1 o s',
    scan w None symbols empty_pools s = (Ok results, s1) /\
    analyze_universe w symbols false use_news news_key min_avg_vol s
      = (Ok o, s') /\
    counts o = map (fun h => (h, length (pool_of h results))) HORIZONS_MONTHS.
Proof.
  intros Hc.
  destruct (scan_returns w None symbols empty_pools s) as (results & s1 & Hs).
  destruct (top_lists_returns None HORIZONS_MONTHS results s1 Hc)
    as (tops & s2 & Ht).
  exists results, s1. eexists. exists s2.
  split; [exact Hs|].
  unfold analyze_universe, bind, ret. rewrite Hs, Ht. split; reflexivity.
Qed.

(** *** One symbol with ten flat days *)

Lemma flat_frame_scored (pad : bool) (c : float) (v : R) (h : Z) :
  In h HORIZONS_MONTHS -> 30000 <= v ->
  exists hs,
    score_for_horizon (Some (compute_indicators pad (flat_frame 10 c (Fin v)))) h
    = Ok (Some hs).
Proof.
  intros Hh Hv. rewrite score_for_horizon_unfold.
  rewrite (flat_frame_recent pad c (Fin v) Hh), compute_indicators_length.
  change (length (flat_frame 10 c (Fin v)) <? 10)%nat with false.
  cbv zeta iota. rewrite (flat_frame_mean_volume pad c v Hh).
  unfold MIN_AVG_VOLUME. simpl. rdecide. eauto.
Qed.

Lemma score_horizons_all (df : iframe) (sym : string)
  (f : Z -> HorizonScore) (hs : list Z) (results : pools) :
  (forall h, In h hs -> score_for_horizon (Some df) h = Ok (Some (f h))) ->
  score_horizons df sym hs results =
    (Ok tt,
     fold_left (fun res h => pool_append h (mkEntry sym h (f h)) res)
               hs results).
Proof.
  revert results; induction hs as [|h hs IH]; intros results Hf;
    [reflexivity|].
  cbn [score_horizons fold_left]. rewrite (Hf h) by now left.
  apply IH. intros h' Hh'. apply Hf. now right.
Qed.

(** The main scan of the one symbol ["A"] whose history is ten flat days
    with enough volume puts it into the pool of every horizon. *)
Lemma scan_one_flat (w : world) (c : float) (v : R) :
  yf_history w 0 "A.NS" = Ok (flat_frame 10 c (Fin v)) ->
  30000 <= v ->
  exists f,
    scan w None ["A"%string] empty_pools init_state =
      (Ok (map (fun h => (h, [mkEntry "A" h (f h)])) HORIZONS_MONTHS),
       mkState 0 1 [EvHistory "A.NS"]).
Proof.
  intros Hy Hv.
  set (df := compute_indicators (pandas_pad w) (flat_frame 10 c (Fin v))).
  set (f := fun h => match score_for_horizon (Some df) h with
                     | Ok (Some hs) => hs
                     | _ => mkScore NaN NaN NaN NaN
                     end).
  assert (Hf : forall h, In h HORIZONS_MONTHS ->
                         score_for_horizon (Some df) h = Ok (Some (f h))).
  { intros h Hh. unfold f.
    destruct (flat_frame_scored (pandas_pad w) c Hh Hv) as [hs E].
    fold df in E. now rewrite E. }
  exists f.
  assert (Hg : get_history w "A" None init_state =
               (Ok (Some (flat_frame 10 c (Fin v))),
                mkState 0 1 [EvHistory "A.NS"])).
  { unfold get_history, fetch_yfinance, bind, do_history. simpl.
    rewrite Hy. reflexivity. }
  unfold scan, bind, scan_symbol. rewrite Hg.
  fold df. rewrite (score_horizons_all df "A" f _ _ Hf). reflexivity.
Qed.

Lemma top10_single (w : world) (e : entry) :
  sort_values_spec w -> exists p, top10 w [e] = [(e, p)].
Proof.
  intros Hspec. unfold top10.
  destruct (sorted_frame [e] Hspec) as (Hall & _ & Hsl).
  pose proof (prob_column_length [e]) as Hl.
  destruct (prob_column [e]) as [|p [|q col]] eqn:E; try discriminate.
  exists p. simpl in Hall. symmetry in Hall.
  apply Permutation_length_1_inv in Hall.
  change (combine [e] [p]) with [(e, p)]. rewrite Hall. reflexivity.
Qed.

Lemma thin_world_answers : fallback_answers thin_world.
Proof. intros k ticker. now exists thin_frame. Qed.

(** The liquidity gate of [score_for_horizon] compares with the module
    constant [MIN_AVG_VOLUME]. *)
Lemma liquidity_gate_fixed (rows : iframe) (months : Z) :
  isna (window_mean_volume rows months)
  || flt (window_mean_volume rows months) MIN_AVG_VOLUME = true ->
  score_for_horizon (Some rows) months = Ok None.
Proof.
  intros G. rewrite score_for_horizon_unfold.
  destruct (_ <? _)%nat; [reflexivity|]. cbv zeta. now rewrite G.
Qed.

(** C3 at the failing input: a run with [min_avg_vol = 50000] over the one
    symbol ["A"], whose ten days trade 40,000 shares each.  The mean volume
    of every window is 40,000, below the threshold that was passed, and the
    symbol is scored all the same and counted for every horizon: the
    threshold applied is the constant 30,000. *)
Theorem min_avg_vol_not_applied :
  (forall h, In h HORIZONS_MONTHS ->
     window_mean_volume (compute_indicators (pandas_pad thin_world) thin_frame) h
     = Fin 40000) /\
  flt (Fin 40000) (Fin 50000) = true /\
  (exists hs,
      score_for_horizon
        (Some (compute_indicators (pandas_pad thin_world) thin_frame)) 6
      = Ok (Some hs)) /\
  exists o s',
    analyze_universe thin_world ["A"%string] false false None (Fin 50000)
                     init_state = (Ok o, s') /\
    counts o = [(6%Z, 1%nat); (12%Z, 1%nat); (18%Z, 1%nat); (24%Z, 1%nat);
                (48%Z, 1%nat)].
Proof.
  split; [intros h Hh; now apply flat_frame_mean_volume|].
  split; [simpl; now rdecide|].
  split; [apply flat_frame_scored; [simpl; auto | lra]|].
  destruct (analyze_universe_returns ["A"%string] false None (Fin 50000)
              init_state thin_world_answers)
    as (results & s1 & o & s' & Hscan & Hrun & Hcounts).
  destruct (@scan_one_flat thin_world (Fin 100) 40000 eq_refl) as [f Hf];
    [lra|].
  rewrite Hf in Hscan. injection Hscan as <- <-.
  exists o, s'. split; [exact Hrun|]. rewrite Hcounts. reflexivity.
Qed.

Lemma compute_stop_after_outage (s : state) (k : nat) :
  n_history s = S k ->
  fst (compute_stop flaky_world None "A" s) = Raise ConnectionError.
Proof.
  intros Hk. unfold compute_stop, bind, get_history, fetch_yfinance, bind,
    do_history. simpl. rewrite Hk. reflexivity.
Qed.

Lemma flaky_world_spec : sort_values_spec flaky_world.
Proof. intros col. apply stable_order_spec. Qed.

(** C2 at the failing input: the fallback provider answers the fetch of the
    main scan and is down afterwards.  The symbol ["A"] is scored, the
    re-fetch for its stop loss raises, and the run ends with that exception
    instead of a report. *)
Theorem second_pass_failure_aborts :
  get_history flaky_world "A" None init_state =
    (Ok (Some liquid_frame), mkState 0 1 [EvHistory "A.NS"]) /\
  (exists results,
      scan flaky_world None ["A"%string] empty_pools init_state =
        (Ok results, mkState 0 1 [EvHistory "A.NS"]) /\
      length (pool_of 6 results) = 1%nat) /\
  fst (analyze_universe flaky_world ["A"%string] false false None
                        MIN_AVG_VOLUME init_state)
  = Raise ConnectionError.
Proof.
  destruct (@scan_one_flat flaky_world (Fin 100) 50000 eq_refl) as [f Hf];
    [lra|].
  split; [reflexivity|]. split; [eexists; split; [exact Hf | reflexivity]|].
  unfold analyze_universe. unfold bind at 1. unfold ret at 1.
  unfold bind at 1. rewrite Hf.
  unfold bind at 1. cbn [top_lists HORIZONS_MONTHS].
  unfold bind at 1.
  change (pool_of 6 (map (fun h => (h, [mkEntry "A" h (f h)])) HORIZONS_MONTHS))
    with [mkEntry "A" 6 (f 6%Z)].
  unfold top_list.
  destruct (top10_single (mkEntry "A" 6 (f 6%Z)) flaky_world_spec) as [p ->].
  cbn [map fst symbol mapM]. unfold bind at 1. unfold bind at 1.
  pose proof (@compute_stop_after_outage (mkState 0 1 [EvHistory "A.NS"]) 0
                eq_refl) as Hstop.
  destruct (compute_stop flaky_world None "A" _) as [[r|e] s2];
    simpl in Hstop; [discriminate|].
  injection Hstop as ->. reflexivity.
Qed.

(** ** Retries and fallback (claim C9) *)

(** C9: with the default budget [safe_get_json] makes one request and, only
    when that raises, sleeps one second and makes a second and last one: at
    most two requests, the delay between them and none after the last; the
    body of the first attempt that succeeds is returned at once, and when the
    last attempt raises, its exception is the outcome, not an empty body.
    [fetch_dhan_candles] lets that exception through; [get_history], given a
    token, catches it and goes on to the fallback provider, as it does when
    the primary provider has no rows. *)
Theorem safe_get_json_retries (w : world) (symbol : string) (c : ascii)
  (token : string) (s : state) :
  safe_get_json w symbol default_retries s =
    match requests_get w (n_get s) symbol with
    | Ok j =>
        (Ok j,
         mkState (S (n_get s)) (n_history s) (trace s ++ [EvGet symbol]))
    | Raise _ =>
        (requests_get w (S (n_get s)) symbol,
         mkState (S (S (n_get s))) (n_history s)
                 (trace s ++ [EvGet symbol; EvSleep 1; EvGet symbol]))
    end /\
  (n_get (snd (safe_get_json w symbol default_retries s)) <= n_get s + 2)%nat /\
  match safe_get_json w symbol default_retries s with
  | (Raise e, s1) => fetch_dhan_candles w symbol token s = (Raise e, s1)
  | (Ok _, _) => True
  end /\
  get_history w symbol (Some (String c token)) s =
    match fetch_dhan_candles w symbol (String c token) s with
    | (Ok (Some (b :: df)), s1) => (Ok (Some (b :: df)), s1)
    | (Ok (Some []), s1) | (Ok None, s1) | (Raise _, s1) =>
        fetch_yfinance w symbol s1
    end.
Proof.
  assert (E : safe_get_json w symbol default_retries s =
    match requests_get w (n_get s) symbol with
    | Ok j =>
        (Ok j,
         mkState (S (n_get s)) (n_history s) (trace s ++ [EvGet symbol]))
    | Raise _ =>
        (requests_get w (S (n_get s)) symbol,
         mkState (S (S (n_get s))) (n_history s)
                 (trace s ++ [EvGet symbol; EvSleep 1; EvGet symbol]))
    end).
  { unfold safe_get_json, default_retries. simpl.
    unfold try_except, do_get, bind, sleep, raise. simpl.
    destruct (requests_get w (n_get s) symbol) as [j|e]; [reflexivity|].
    rewrite <- !app_assoc. simpl.
    now destruct (requests_get w (S (n_get s)) symbol). }
  split; [exact E|]. split; [|split].
  - rewrite E. destruct (requests_get w (n_get s) symbol); simpl; lia.
  - unfold fetch_dhan_candles, bind.
    now destruct (safe_get_json w symbol default_retries s) as [[j|e] s1].
  - unfold get_history. simpl. unfold bind, try_except.
    now destruct (fetch_dhan_candles w symbol (String c token) s)
      as [[[[|b df]|]|e] s1].
Qed.

(** ** The news parameters (claim C10) *)

(** C10: [use_news] and [news_key] have no effect: two runs that differ in
    them only, in the same world and from the same state, make the same
    calls and end alike: the same exception, or the same file name,
    workbook and counts. *)
Theorem news_parameters_ignored (w : world) (symbols : list string)
  (use_dhan : bool) (min_avg_vol : float) (s : state)
  (use_news use_news' : bool) (news_key news_key' : option string) :
  analyze_universe w symbols use_dhan use_news news_key min_avg_vol s =
  analyze_universe w symbols use_dhan use_news' news_key' min_avg_vol s.
Proof. reflexivity. Qed.

(** * Further properties of the code *)

(** ** [safe_get_json] with any retry budget *)

Lemma do_get_run (w : world) (symbol : string) (s : state) :
  do_get w symbol s =
    (requests_get w (n_get s) symbol,
     mkState (S (n_get s)) (n_history s) (trace s ++ [EvGet symbol])).
Proof. reflexivity. Qed.

Lemma loop_step (w : world) (symbol : string) (retries n i : nat) :
  safe_get_json_loop w symbol retries (S n) i =
    try_except (do_get w symbol)
      (fun e =>
         if (i =? retries - 1)%nat then raise e
         else sleep 1 ;;; safe_get_json_loop w symbol retries n (S i)).
Proof. reflexivity. Qed.

Lemma loop_first_success (w : world) (symbol : string) (retries : nat) :
  forall n i s k body,
    (i + n = retries)%nat -> (k < n)%nat ->
    (forall j, (j < k)%nat ->
               exists e, requests_get w (n_get s + j) symbol = Raise e) ->
    requests_get w (n_get s + k) symbol = Ok body ->
    safe_get_json_loop w symbol retries n i s =
      (Ok body,
       mkState (n_get s + S k) (n_history s)
               (trace s ++ failed_attempts symbol k ++ [EvGet symbol])).
Proof.
  induction n as [|n IH]; intros i s k body Hi Hk Hfail Hok; [lia|].
  rewrite loop_step. unfold try_except. rewrite do_get_run.
  destruct k as [|k].
  - rewrite Nat.add_0_r in Hok. rewrite Hok. simpl.
    now rewrite Nat.add_1_r.
  - destruct (Hfail 0%nat) as [e He]; [lia|].
    rewrite Nat.add_0_r in He. rewrite He.
    destruct (Nat.eqb_spec i (retries - 1)) as [E|_]; [lia|].
    unfold bind, sleep. cbn [n_get n_history trace].
    rewrite (IH (S i) _ k body); cbn [n_get n_history trace]; try lia.
    + f_equal. f_equal; [lia|]. now rewrite <- !app_assoc.
    + intros j Hj. destruct (Hfail (S j)) as [e' He']; [lia|].
      exists e'. now rewrite <- He', Nat.add_succ_comm.
    + now rewrite <- Hok, Nat.add_succ_comm.
Qed.

Lemma loop_all_fail (w : world) (symbol : string) (retries : nat) :
  forall r i s e,
    (i + S r = retries)%nat ->
    (forall j, (j < r)%nat ->
               exists e', requests_get w (n_get s + j) symbol = Raise e') ->
    requests_get w (n_get s + r) symbol = Raise e ->
    safe_get_json_loop w symbol retries (S r) i s =
      (Raise e,
       mkState (n_get s + S r) (n_history s)
               (trace s ++ failed_attempts symbol r ++ [EvGet symbol])).
Proof.
  induction r as [|r IH]; intros i s e Hi Hfail Hlast;
    rewrite loop_step; unfold try_except; rewrite do_get_run.
  - rewrite Nat.add_0_r in Hlast. rewrite Hlast.
    destruct (Nat.eqb_spec i (retries - 1)) as [_|N]; [|lia].
    unfold raise. simpl. now rewrite Nat.add_1_r.
  - destruct (Hfail 0%nat) as [e0 He0]; [lia|].
    rewrite Nat.add_0_r in He0. rewrite He0.
    destruct (Nat.eqb_spec i (retries - 1)) as [E|_]; [lia|].
    unfold bind, sleep. cbn [n_get n_history trace].
    rewrite (IH (S i) _ e); cbn [n_get n_history trace]; try lia.
    + f_equal. f_equal; [lia|]. now rewrite <- !app_assoc.
    + intros j Hj. destruct (Hfail (S j)) as [e' He']; [lia|].
      exists e'. now rewrite <- He', Nat.add_succ_comm.
    + now rewrite <- Hlast, Nat.add_succ_comm.
Qed.

(** X1: when every attempt of the budget raises, [safe_get_json] raises the
    exception of the last attempt, after exactly [retries] requests with a
    one-second sleep after each but the last. *)
Theorem safe_get_json_exhausted (w : world) (symbol : string) (r : nat)
  (s : state) (e : exn) :
  (forall j, (j < r)%nat ->
             exists e', requests_get w (n_get s + j) symbol = Raise e') ->
  requests_get w (n_get s + r) symbol = Raise e ->
  safe_get_json w symbol (S r) s =
    (Raise e,
     mkState (n_get s + S r) (n_history s)
             (trace s ++ failed_attempts symbol r ++ [EvGet symbol])).
Proof.
  intros Hfail Hlast. unfold safe_get_json.
  apply loop_all_fail; [lia | exact Hfail | exact Hlast].
Qed.

Lemma safe_get_json_exhausted_witness :
  safe_get_json stable_world "A" 3 init_state =
    (Raise ConnectionError,
     mkState 3 0 [EvGet "A"; EvSleep 1; EvGet "A"; EvSleep 1; EvGet "A"]).
Proof.
  apply (@safe_get_json_exhausted stable_world "A" 2 init_state ConnectionError).
  - intros j _. now exists ConnectionError.
  - reflexivity.
Defined.

(** X2: the first attempt that succeeds ends [safe_get_json]: its body is
    returned, no further request is made, and each failed attempt before it
    was followed by a one-second sleep. *)
Theorem safe_get_json_first_success (w : world) (symbol : string)
  (retries k : nat) (s : state) (body : json) :
  (k < retries)%nat ->
  (forall j, (j < k)%nat ->
             exists e, requests_get w (n_get s + j) symbol = Raise e) ->
  requests_get w (n_get s + k) symbol = Ok body ->
  safe_get_json w symbol retries s =
    (Ok body,
     mkState (n_get s + S k) (n_history s)
             (trace s ++ failed_attempts symbol k ++ [EvGet symbol])).
Proof.
  intros Hk Hfail Hok. unfold safe_get_json.
  apply loop_first_success; [lia | exact Hk | exact Hfail | exact Hok].
Qed.

Lemma safe_get_json_first_success_witness :
  safe_get_json recovering_world "A" 5 init_state =
    (Ok (JArr [JNum (Fin 1)]),
     mkState 2 0 [EvGet "A"; EvSleep 1; EvGet "A"]).
Proof.
  apply (@safe_get_json_first_success recovering_world "A" 5 1 init_state).
  - lia.
  - intros j Hj. exists HTTPError. now replace j with 0%nat by lia.
  - reflexivity.
Defined.

Lemma loop_outcome (w : world) (symbol : string) (retries : nat) :
  forall n i s,
    (i + S n = retries)%nat ->
    exists k, (k <= n)%nat /\
      fst (safe_get_json_loop w symbol retries (S n) i s)
        = requests_get w (n_get s + k) symbol /\
      n_get (snd (safe_get_json_loop w symbol retries (S n) i s))
        = (n_get s + S k)%nat /\
      n_history (snd (safe_get_json_loop w symbol retries (S n) i s))
        = n_history s.
Proof.
  induction n as [|n IH]; intros i s Hi;
    rewrite loop_step; unfold try_except; rewrite do_get_run.
  - exists 0%nat. rewrite Nat.add_0_r.
    destruct (requests_get w (n_get s) symbol) as [j|e]; simpl.
    + repeat split; lia.
    + destruct (Nat.eqb_spec i (retries - 1)) as [_|N]; [|lia].
      unfold raise; simpl. repeat split; lia.
  - destruct (requests_get w (n_get s) symbol) as [j|e] eqn:E.
    + exists 0%nat. rewrite Nat.add_0_r, E. simpl. repeat split; lia.
    + destruct (Nat.eqb_spec i (retries - 1)) as [N|_]; [lia|].
      unfold bind, sleep. cbn [n_get n_history trace].
      set (s2 := mkState (S (n_get s)) (n_history s)
                         ((trace s ++ [EvGet symbol]) ++ [EvSleep 1])).
      destruct (IH (S i) s2) as (k & Hk & H1 & H2 & H3); [lia|].
      exists (S k). rewrite H1, H2, H3. unfold s2; simpl.
      repeat split; try lia. f_equal. lia.
Qed.

(** X3: whatever the budget, [safe_get_json] makes at most [retries]
    requests and never calls the fallback provider; with a budget of at
    least one its outcome is the outcome of the last request it made, so it
    is never the silent [None]; with a budget of zero it makes no request
    and returns [None]. *)
Theorem safe_get_json_budget (w : world) (symbol : string) (retries : nat)
  (s : state) :
  (n_get s <= n_get (snd (safe_get_json w symbol retries s))
           <= n_get s + retries)%nat /\
  n_history (snd (safe_get_json w symbol retries s)) = n_history s /\
  match retries with
  | O => safe_get_json w symbol retries s = (Ok JNull, s)
  | S _ =>
      exists k, (k < retries)%nat /\
        fst (safe_get_json w symbol retries s)
          = requests_get w (n_get s + k) symbol /\
        n_get (snd (safe_get_json w symbol retries s)) = (n_get s + S k)%nat
  end.
Proof.
  unfold safe_get_json. destruct retries as [|n].
  - simpl. unfold ret; simpl. repeat split; lia.
  - destruct (@loop_outcome w symbol (S n) n 0 s) as (k & Hk & H1 & H2 & H3);
      [lia|].
    rewrite H2, H3. split; [lia|]. split; [reflexivity|].
    exists k. repeat split; [lia | exact H1].
Qed.

(** ** The providers *)

Lemma has_dot_app (a b : string) :
  has_dot b = true -> has_dot (a ++ b) = true.
Proof.
  intros H. induction a as [|c a IH]; simpl; [exact H|].
  now destruct (Ascii.eqb c "."%char).
Qed.

Lemma fetch_yfinance_run (w : world) (symbol : string) (s : state) :
  fetch_yfinance w symbol s =
    (match yf_history w (n_history s) (ticker_of symbol) with
     | Ok [] => Ok None
     | Ok (b :: df) => Ok (Some (b :: df))
     | Raise e => Raise e
     end,
     mkState (n_get s) (S (n_history s))
             (trace s ++ [EvHistory (ticker_of symbol)])).
Proof.
  unfold fetch_yfinance, bind, do_history. fold (ticker_of symbol).
  now destruct (yf_history w (n_history s) (ticker_of symbol)) as [[|b df]|e].
Qed.

(** X4: [fetch_yfinance] makes exactly one call to the fallback provider and
    no request to the primary one; the ticker it asks for always carries an
    exchange qualifier: a symbol with a dot is passed on unchanged,
    [".NS"] is appended to one without, and qualifying a ticker again
    changes nothing; an empty answer is returned as [None], never as an
    empty frame. *)
Theorem fetch_yfinance_ticker (w : world) (symbol : string) (s : state) :
  snd (fetch_yfinance w symbol s) =
    mkState (n_get s) (S (n_history s))
            (trace s ++ [EvHistory (ticker_of symbol)]) /\
  has_dot (ticker_of symbol) = true /\
  ticker_of (ticker_of symbol) = ticker_of symbol /\
  (if has_dot symbol then ticker_of symbol = symbol
   else ticker_of symbol = (symbol ++ ".NS")%string) /\
  fst (fetch_yfinance w symbol s) <> Ok (Some []).
Proof.
  assert (Hd : has_dot (ticker_of symbol) = true).
  { unfold ticker_of. destruct (has_dot symbol) eqn:E; [exact E|].
    now apply has_dot_app. }
  rewrite fetch_yfinance_run. split; [reflexivity|]. split; [exact Hd|].
  split; [|split].
  - unfold ticker_of at 1. now rewrite Hd.
  - unfold ticker_of. now destruct (has_dot symbol).
  - simpl. now destruct (yf_history w (n_history s) (ticker_of symbol))
      as [[|b df]|e].
Qed.

Lemma fetch_dhan_candles_state (w : world) (symbol token : string) (s : state) :
  snd (fetch_dhan_candles w symbol token s)
  = snd (safe_get_json w symbol default_retries s).
Proof.
  unfold fetch_dhan_candles, bind.
  destruct (safe_get_json w symbol default_retries s) as [[j|e] s1];
    [|reflexivity].
  destruct (negb (truthy j)); [reflexivity|].
  unfold lift. destruct (py_len (candles_of j)) as [n|e]; [|reflexivity].
  destruct (n =? 0)%nat; [reflexivity|].
  now destruct (candles_frame w (candles_of j)).
Qed.

Lemma safe_get_json_default_state (w : world) (symbol : string) (s : state) :
  (n_get s <= n_get (snd (safe_get_json w symbol default_retries s))
           <= n_get s + 2)%nat /\
  n_history (snd (safe_get_json w symbol default_retries s)) = n_history s.
Proof.
  unfold safe_get_json, default_retries.
  destruct (@loop_outcome w symbol 2 1 0 s) as (k & Hk & _ & H2 & H3); [lia|].
  rewrite H2, H3. split; [lia | reflexivity].
Qed.

(** What one call of [get_history] does, whatever the token. *)
Lemma get_history_cases (w : world) (symbol : string) (tok : option string)
  (s : state) :
  (n_get s <= n_get (snd (get_history w symbol tok s)) <= n_get s + 2)%nat /\
  (n_history s <= n_history (snd (get_history w symbol tok s))
               <= S (n_history s))%nat /\
  (token_set tok = None ->
   n_get (snd (get_history w symbol tok s)) = n_get s /\
   n_history (snd (get_history w symbol tok s)) = S (n_history s)) /\
  match fst (get_history w symbol tok s) with
  | Ok (Some df) => df <> []
  | Ok None => yf_history w (n_history s) (ticker_of symbol) = Ok []
  | Raise e => yf_history w (n_history s) (ticker_of symbol) = Raise e
  end.
Proof.
  assert (Hy : forall s1,
    n_get (snd (fetch_yfinance w symbol s1)) = n_get s1 /\
    n_history (snd (fetch_yfinance w symbol s1)) = S (n_history s1) /\
    match fst (fetch_yfinance w symbol s1) with
    | Ok (Some df) => df <> []
    | Ok None => yf_history w (n_history s1) (ticker_of symbol) = Ok []
    | Raise e => yf_history w (n_history s1) (ticker_of symbol) = Raise e
    end).
  { intros s1. rewrite fetch_yfinance_run. simpl.
    split; [reflexivity|]. split; [reflexivity|].
    destruct (yf_history w (n_history s1) (ticker_of symbol)) as [[|b df]|e];
      try reflexivity. discriminate. }
  unfold get_history. destruct (token_set tok) as [t|] eqn:T.
  - unfold bind, try_except.
    pose proof (fetch_dhan_candles_state w symbol t s) as Hst.
    destruct (safe_get_json_default_state w symbol s) as [Hg Hh].
    rewrite <- Hst in Hg, Hh.
    destruct (fetch_dhan_candles w symbol t s) as [[[[|b df]|]|e] s1];
      simpl in Hg, Hh; unfold ret; cbn [fst snd];
      try (destruct (Hy s1) as (Y1 & Y2 & Y3); rewrite Y1, Y2, Hh in *;
           repeat split; try lia; try discriminate; exact Y3).
    repeat split; try lia; try discriminate.
  - destruct (Hy s) as (Y1 & Y2 & Y3). rewrite Y1, Y2.
    repeat split; try lia. exact Y3.
Qed.

(** X5: one call of [get_history] makes at most two requests to the primary
    provider and at most one call to the fallback provider.  A frame it
    returns is never empty; it returns [None] only when the fallback
    provider answered with no rows, and it raises only when the fallback
    provider raised: a failure of the primary provider never surfaces. *)
Theorem get_history_outcomes (w : world) (symbol : string)
  (tok : option string) (s : state) :
  (n_get s <= n_get (snd (get_history w symbol tok s)) <= n_get s + 2)%nat /\
  (n_history s <= n_history (snd (get_history w symbol tok s))
               <= S (n_history s))%nat /\
  match fst (get_history w symbol tok s) with
  | Ok (Some df) => df <> []
  | Ok None => yf_history w (n_history s) (ticker_of symbol) = Ok []
  | Raise e => yf_history w (n_history s) (ticker_of symbol) = Raise e
  end.
Proof.
  destruct (get_history_cases w symbol tok s) as (H1 & H2 & _ & H4).
  split; [exact H1|]. split; [exact H2 | exact H4].
Qed.

(** X6: when the first request to the primary provider returns a body that
    holds candles and the frame built from them is not empty, [get_history]
    called with a token returns that frame after this one request: no
    retry, no sleep and no call to the fallback provider. *)
Theorem primary_answer_preferred (w : world) (symbol : string) (c : ascii)
  (token : string) (s : state) (j : json) (n : nat) (b : bar) (df : frame) :
  requests_get w (n_get s) symbol = Ok j ->
  truthy j = true ->
  py_len (candles_of j) = Ok (S n) ->
  candles_frame w (candles_of j) = Ok (b :: df) ->
  get_history w symbol (Some (String c token)) s =
    (Ok (Some (b :: df)),
     mkState (S (n_get s)) (n_history s) (trace s ++ [EvGet symbol])).
Proof.
  intros Hget Ht Hlen Hframe.
  set (s1 := mkState (S (n_get s)) (n_history s) (trace s ++ [EvGet symbol])).
  assert (H1 : safe_get_json w symbol default_retries s = (Ok j, s1)).
  { unfold safe_get_json, default_retries.
    rewrite (@loop_first_success w symbol 2 2 0 s 0 j); try lia.
    - unfold s1. simpl. now rewrite Nat.add_1_r.
    - now rewrite Nat.add_0_r. }
  assert (H2 : fetch_dhan_candles w symbol (String c token) s
               = (Ok (Some (b :: df)), s1)).
  { unfold fetch_dhan_candles, bind. rewrite H1, Ht. simpl negb. cbv iota.
    unfold lift. rewrite Hlen. simpl Nat.eqb. cbv iota. now rewrite Hframe. }
  unfold get_history.
  change (token_set (Some (String c token))) with (Some (String c token)).
  unfold bind, try_except. now rewrite H2.
Qed.

Lemma primary_answer_preferred_witness :
  get_history primary_world "A" (Some "t"%string) init_state =
    (Ok (Some liquid_frame), mkState 1 0 [EvGet "A"]).
Proof.
  apply (@primary_answer_preferred primary_world "A" "t"%char EmptyString
           init_state (JObj [("candles"%string, JArr [JNum (Fin 1)])]) 0);
    reflexivity.
Defined.

(** ** The column mapping *)

Lemma starts_with_app (a b s : string) :
  starts_with (a ++ b) s = true -> starts_with a s = true.
Proof.
  revert s; induction a as [|c a IH]; intros s H; [now destruct s|].
  destruct s as [|d s]; [discriminate|]. simpl in *.
  apply andb_true_iff in H. destruct H as [H1 H2].
  now rewrite H1, (IH _ H2).
Qed.

Lemma contains_app (a b s : string) :
  contains (a ++ b) s = true -> contains a s = true.
Proof.
  induction s as [|d s IH]; simpl; intros H.
  - rewrite orb_false_r in *. now apply starts_with_app in H.
  - apply orb_true_iff in H. apply orb_true_iff. destruct H as [H|H].
    + left. exact (starts_with_app _ _ _ H).
    + right. now apply IH.
Qed.

(** X7: the mapping of a column name is decided by precedence, in the
    reverse of the order of the tests in the source: a name that contains
    [date] or [time] is the date axis whatever else it contains, then come
    [volume], [close] or [last], [low], [high] and [open]; a name with none
    of them is left alone.  The tests for [closeprice] and [timestamp]
    never change the outcome. *)
Theorem column_target_precedence (c : string) :
  column_target c =
    let lc := lower c in
    if contains "date" lc || contains "time" lc then Some "date"%string
    else if contains "volume" lc then Some "volume"%string
    else if contains "close" lc || contains "last" lc then Some "close"%string
    else if contains "low" lc then Some "low"%string
    else if contains "high" lc then Some "high"%string
    else if contains "open" lc then Some "open"%string
    else None.
Proof.
  unfold column_target. cbv zeta. set (lc := lower c).
  assert (H1 : contains "closeprice" lc = true -> contains "close" lc = true)
    by apply (contains_app "close" "price").
  assert (H2 : contains "timestamp" lc = true -> contains "time" lc = true)
    by apply (contains_app "time" "stamp").
  destruct (contains "closeprice" lc);
    [rewrite H1 by reflexivity | clear H1];
    (destruct (contains "timestamp" lc);
      [rewrite H2 by reflexivity | clear H2]);
    destruct (contains "date" lc), (contains "time" lc),
      (contains "volume" lc), (contains "close" lc), (contains "last" lc),
      (contains "low" lc), (contains "high" lc), (contains "open" lc);
    reflexivity.
Qed.

Lemma column_target_names (c t : string) :
  column_target c = Some t ->
  In t ["open"; "high"; "low"; "close"; "volume"; "date"]%string.
Proof.
  rewrite column_target_precedence. cbv zeta.
  repeat match goal with
         | |- context [if ?b then _ else _] => destruct b
         end; intros [= <-]; simpl; auto 10.
Qed.

(** X8: building [col_map] fails with [AttributeError] exactly when some
    column label is not a string (rows given as arrays); over string labels
    it holds, in column order, every column that has a target together with
    that target, and every target is one of the six names. *)
Theorem build_col_map_labels (columns : list label) (names : list string) :
  ((exists n, In (LInt n) columns) <->
   build_col_map columns = ColAttributeError) /\
  build_col_map (map LStr names) =
    ColMap (flat_map (fun c => match column_target c with
                               | Some t => [(c, t)]
                               | None => []
                               end) names) /\
  (forall entries c t,
      build_col_map columns = ColMap entries -> In (c, t) entries ->
      In (LStr c) columns /\ column_target c = Some t /\
      In t ["open"; "high"; "low"; "close"; "volume"; "date"]%string).
Proof.
  split; [|split].
  - induction columns as [|[c|n] columns IH]; simpl.
    + split; [intros [n []] | discriminate].
    + destruct (build_col_map columns) as [entries|].
      * split.
        -- intros [n [H|H]]; [discriminate|].
           assert (X : ColMap entries = ColAttributeError)
             by (apply IH; now exists n). discriminate.
        -- now destruct (column_target c).
      * split; [reflexivity|]. intros _.
        destruct IH as [_ IH]. destruct (IH eq_refl) as [n Hn].
        exists n. now right.
    + split; [reflexivity|]. intros _. exists n. now left.
  - induction names as [|c names IH]; [reflexivity|]. simpl. rewrite IH.
    now destruct (column_target c).
  - induction columns as [|[c0|n] columns IH]; simpl; intros entries c t.
    + intros [= <-] [].
    + destruct (build_col_map columns) as [entries0|]; [|discriminate].
      destruct (column_target c0) as [t0|] eqn:E; intros [= <-] Hin.
      * destruct Hin as [[= <- <-]|Hin].
        -- split; [now left|]. split; [exact E|].
           exact (column_target_names _ E).
        -- destruct (IH _ _ _ eq_refl Hin) as (A & B & C). auto.
      * destruct (IH _ _ _ eq_refl Hin) as (A & B & C). auto.
    + discriminate.
Qed.

(** ** More on the indicators *)

Lemma fdiv_nan_r (a : float) : fdiv a NaN = NaN.
Proof. now destruct a. Qed.

Lemma pct_change_head (pad : bool) (a : float) (l : list float) :
  exists rest, pct_change pad (a :: l) = NaN :: rest.
Proof.
  unfold pct_change.
  assert (H : forall data : list float, data <> [] ->
            exists rest,
              map (fun p => fsub (fdiv (fst p) (snd p)) (Fin 1))
                  (combine data (shift1 data)) = NaN :: rest).
  { intros [|d data] Hne; [congruence|]. unfold shift1. simpl.
    rewrite fdiv_nan_r. eauto. }
  destruct pad; apply H; [|discriminate].
  unfold ffill. simpl. discriminate.
Qed.

(** X9: at the first bar of any series the daily return is undefined, and
    at the first two bars the annualized volatility is undefined: the
    indicators need a warm-up of two bars for the volatility, whatever the
    prices are. *)
Theorem indicators_warm_up (pad : bool) (df : frame) (t : nat) (r : ibar) :
  nth_error (compute_indicators pad df) t = Some r ->
  (t <= 1)%nat ->
  volatility_annual r = NaN /\ (t = 0%nat -> ret_1d r = NaN).
Proof.
  intros H Ht.
  destruct (compute_indicators_nth _ _ _ H) as (Hlt & _ & Hret & _ & _ & Hv).
  destruct df as [|b df]; [simpl in Hlt; lia|].
  destruct (pct_change_head pad (close b) (map close df)) as [rest E].
  change (map close (b :: df)) with (close b :: map close df) in Hret, Hv.
  rewrite E in Hret, Hv. split.
  - rewrite Hv. unfold window.
    destruct t as [|[|t]]; [| |lia]; simpl.
    + reflexivity.
    + destruct rest as [|x rest]; [reflexivity|].
      simpl. unfold nanstd, dropna. simpl. now destruct (isna x).
  - intros ->. exact Hret.
Qed.

Lemma indicators_warm_up_witness :
  exists r,
    nth_error (compute_indicators false two_bar_frame) 1 = Some r /\
    volatility_annual r = NaN.
Proof.
  eexists. split; [reflexivity|].
  apply (@indicators_warm_up false two_bar_frame 1 _ eq_refl). lia.
Defined.

Lemma fsum_Fin_from (l : list R) (a : R) :
  fold_left fadd (map Fin l) (Fin a) = Fin (fold_left Rplus l a).
Proof.
  revert a; induction l as [|x l IH]; intros a; [reflexivity|].
  simpl. apply IH.
Qed.

Lemma fold_Rplus_nonneg (l : list R) (a : R) :
  0 <= a -> Forall (fun x => 0 <= x) l -> 0 <= fold_left Rplus l a.
Proof.
  revert a; induction l as [|x l IH]; intros a Ha Hl; [exact Ha|].
  inversion Hl; subst. simpl. apply IH; [lra | assumption].
Qed.

(** The mean of finite values that are not negative is such a value. *)
Lemma nanmean_nonneg (l : list R) :
  l <> [] -> Forall (fun x => 0 <= x) l ->
  exists m, nanmean (map Fin l) = Fin m /\ 0 <= m.
Proof.
  intros Hne Hl. unfold nanmean. rewrite dropna_Fin.
  destruct l as [|x l]; [congruence|].
  change (map Fin (x :: l)) with (Fin x :: map Fin l). cbv iota beta.
  change (Fin x :: map Fin l) with (map Fin (x :: l)).
  unfold fsum, count_f. rewrite fsum_Fin_from, length_map.
  assert (Hn : 0 < INR (length (x :: l))) by (apply lt_0_INR; simpl; lia).
  cbn [fdiv]. rewrite req_false by lra.
  eexists. split; [reflexivity|].
  apply Rmult_le_pos.
  - apply fold_Rplus_nonneg; [lra | exact Hl].
  - left. now apply Rinv_0_lt_compat.
Qed.

Lemma true_ranges_Fin (df : frame) :
  ranges_finite df ->
  exists l, true_ranges df = map Fin l /\ Forall (fun x => 0 <= x) l.
Proof.
  induction 1 as [|b df [Hh Hl] _ (l & E & F)].
  - exists []. split; [reflexivity | constructor].
  - destruct (high b) as [| | |h] eqn:Eh; try contradiction.
    destruct (low b) as [| | |lo] eqn:El; try contradiction.
    exists (Rabs (h + - lo) :: l). split.
    + unfold true_ranges in *. simpl. now rewrite Eh, El, E.
    + constructor; [apply Rabs_pos | exact F].
Qed.

Lemma in_firstn {A} (n : nat) (l : list A) (x : A) :
  In x (firstn n l) -> In x l.
Proof.
  intros H. rewrite <- (firstn_skipn n l). apply in_or_app. now left.
Qed.

Lemma in_skipn {A} (n : nat) (l : list A) (x : A) :
  In x (skipn n l) -> In x l.
Proof.
  intros H. rewrite <- (firstn_skipn n l). apply in_or_app. now right.
Qed.

Lemma window_map_Fin (w t : nat) (l : list R) :
  window w t (map Fin l) = map Fin (skipn (t + 1 - w) (firstn (t + 1) l)).
Proof. unfold window. now rewrite firstn_map, skipn_map. Qed.

(** X10: on a series whose highs and lows are all finite numbers, the true
    range and the average true range of every bar are finite numbers that
    are not negative. *)
Theorem true_range_not_negative (pad : bool) (df : frame) (t : nat)
  (r : ibar) :
  ranges_finite df ->
  nth_error (compute_indicators pad df) t = Some r ->
  (exists x, tr r = Fin x /\ 0 <= x) /\ (exists a, atr r = Fin a /\ 0 <= a).
Proof.
  intros Hfin H.
  destruct (compute_indicators_nth _ _ _ H) as (Hlt & _ & _ & Htr & Hatr & _).
  destruct (true_ranges_Fin Hfin) as (l & E & F).
  assert (Hlen : length l = length df).
  { rewrite <- (length_map Fin l), <- E. unfold true_ranges.
    now rewrite length_map. }
  rewrite E in Htr, Hatr. split.
  - rewrite Htr.
    rewrite (nth_indep _ NaN (Fin 0)) by (rewrite length_map; lia).
    rewrite (map_nth Fin). eexists. split; [reflexivity|].
    rewrite Forall_forall in F. apply F. apply nth_In. lia.
  - rewrite Hatr, window_map_Fin. apply nanmean_nonneg.
    + intros Hnil. apply (f_equal (@length _)) in Hnil.
      rewrite length_skipn, length_firstn in Hnil. simpl in Hnil. lia.
    + rewrite Forall_forall in *. intros x Hx. apply F.
      eapply in_firstn, in_skipn. exact Hx.
Qed.

Lemma true_range_not_negative_witness :
  exists r,
    nth_error (compute_indicators true two_bar_frame) 0 = Some r /\
    (exists x, tr r = Fin x /\ 0 <= x) /\ (exists a, atr r = Fin a /\ 0 <= a).
Proof.
  eexists. split; [reflexivity|].
  apply (@true_range_not_negative true two_bar_frame 0 _).
  - repeat constructor.
  - reflexivity.
Defined.

Lemma latest_atr_nonneg (rows : frame) :
  rows <> [] -> ranges_finite rows ->
  exists a, latest_atr rows = Fin a /\ 0 <= a.
Proof.
  intros Hne Hfin. unfold latest_atr.
  destruct (true_ranges_Fin Hfin) as (l & E & F).
  assert (Hlen : length l = length rows).
  { rewrite <- (length_map Fin l), <- E. unfold true_ranges.
    now rewrite length_map. }
  rewrite E, window_map_Fin. apply nanmean_nonneg.
  - intros Hnil. apply (f_equal (@length _)) in Hnil.
    rewrite length_skipn, length_firstn in Hnil. simpl in Hnil.
    destruct rows; [congruence | simpl in *; lia].
  - rewrite Forall_forall in *. intros x Hx. apply F.
    eapply in_firstn, in_skipn. exact Hx.
Qed.

(** X11: when the re-fetched history has finite highs and lows and a latest
    close that is a finite number and not negative, both estimates are
    numbers and the latest close lies between them: the stop loss is at
    most the close and the target is three times the close. *)
Theorem stop_close_target (w : world) (tok : option string) (sym : string)
  (s s1 : state) (rows : frame) (c : R) :
  rows <> [] ->
  ranges_finite rows ->
  latest_close rows = Fin c ->
  0 <= c ->
  get_history w sym tok s = (Ok (Some rows), s1) ->
  exists lo hi,
    compute_stop w tok sym s = (Ok (Some (Fin lo)), s1) /\
    compute_target w tok sym s = (Ok (Some (Fin hi)), s1) /\
    lo <= c <= hi /\ hi = c * 3.
Proof.
  intros Hne Hfin Hclose Hpos Hh.
  destruct (latest_row (pandas_pad w) Hne) as (r0 & rest & E & Hc & Ha).
  destruct (latest_atr_nonneg Hne Hfin) as (a & Hatr & Hapos).
  rewrite Hclose in Hc. rewrite Hatr in Ha.
  exists (c + - (15 / 10 * a)), (c * 3).
  split; [|split; [|split; [lra | reflexivity]]].
  - unfold compute_stop, bind. rewrite Hh.
    destruct rows as [|b rows']; [congruence|].
    now rewrite E, Ha, Hc.
  - unfold compute_target, bind. rewrite Hh.
    destruct rows as [|b rows']; [congruence|].
    now rewrite E, Hc.
Qed.

Lemma stop_close_target_witness :
  exists lo hi,
    compute_stop stable_world None "A" init_state
      = (Ok (Some (Fin lo)), mkState 0 1 [EvHistory "A.NS"]) /\
    compute_target stable_world None "A" init_state
      = (Ok (Some (Fin hi)), mkState 0 1 [EvHistory "A.NS"]) /\
    lo <= 100 <= hi /\ hi = 100 * 3.
Proof.
  apply (@stop_close_target stable_world None "A" init_state
           (mkState 0 1 [EvHistory "A.NS"]) liquid_frame 100).
  - discriminate.
  - repeat constructor.
  - reflexivity.
  - lra.
  - reflexivity.
Defined.

Lemma ffill_from_defined (a : float) (l : list float) :
  Forall (fun x => isna x = false) l -> ffill_from a l = l.
Proof.
  intros H; revert a; induction H as [|x l Hx _ IH]; intros a;
    [reflexivity|].
  simpl. rewrite Hx. now rewrite IH.
Qed.

(** X12: on a series in which every close is defined the indicators do not
    depend on whether pandas pads in [pct_change]: both behaviours give the
    same rows. *)
Theorem indicators_pad_independent (df : frame) :
  closes_defined df ->
  compute_indicators true df = compute_indicators false df.
Proof.
  intros H.
  assert (E : pct_change true (map close df) = pct_change false (map close df)).
  { unfold pct_change, ffill. rewrite ffill_from_defined; [reflexivity|].
    rewrite Forall_map. exact H. }
  unfold compute_indicators. now rewrite E.
Qed.

Lemma indicators_pad_independent_witness :
  compute_indicators true liquid_frame = compute_indicators false liquid_frame.
Proof.
  apply indicators_pad_independent. repeat constructor.
Defined.

(** ** More on the recent window *)

Lemma index_max_spec (d0 : Z) (ds : list Z) :
  In (index_max d0 ds) (d0 :: ds) /\
  forall d, In d (d0 :: ds) -> (d <= index_max d0 ds)%Z.
Proof.
  unfold index_max. revert d0; induction ds as [|d1 ds IH]; intros d0; simpl.
  - split; [now left | intros d [<-|[]]; lia].
  - destruct (IH (Z.max d0 d1)) as [Hin Hle]. split.
    + destruct Hin as [Hin|Hin]; [|now right; right].
      rewrite <- Hin. destruct (Z.max_spec d0 d1) as [[_ ->]|[_ ->]]; auto.
    + intros d Hd.
      assert (Hm : (Z.max d0 d1 <= fold_left Z.max ds (Z.max d0 d1))%Z)
        by (apply Hle; now left).
      destruct Hd as [<-|[<-|Hd]]; [lia | lia | apply Hle; now right].
Qed.

(** X13: the recent window of a series that is not empty holds exactly the
    bars dated within [months * 30] days of the latest date of the series;
    for a horizon that is not negative it holds the latest bar, so it is
    never empty. *)
Theorem recent_window_span (rows : iframe) (months : Z) :
  rows <> [] ->
  exists end_ : Z,
    (forall r, In r rows -> (idate r <= end_)%Z) /\
    (exists r, In r rows /\ idate r = end_) /\
    (forall r, In r (recent_window rows months) <->
               In r rows /\ (end_ - months * 30 <= idate r)%Z) /\
    ((0 <= months)%Z -> recent_window rows months <> []).
Proof.
  destruct rows as [|r0 rest]; [congruence|]; intros _.
  destruct (index_max_spec (idate r0) (map idate rest)) as [Hin Hle].
  set (end_ := index_max (idate r0) (map idate rest)) in *.
  change (idate r0 :: map idate rest) with (map idate (r0 :: rest)) in Hin, Hle.
  assert (Hmem : forall r, In r (recent_window (r0 :: rest) months) <->
                 In r (r0 :: rest) /\ (end_ - months * 30 <= idate r)%Z).
  { intros r. unfold recent_window. fold end_. rewrite filter_In.
    now rewrite Z.leb_le. }
  apply in_map_iff in Hin. destruct Hin as (rmax & Hd & Hrmax).
  exists end_. split; [|split; [|split]].
  - intros r Hr. apply Hle. now apply in_map.
  - now exists rmax.
  - exact Hmem.
  - intros Hm Hnil.
    assert (In rmax (recent_window (r0 :: rest) months))
      by (apply Hmem; split; [exact Hrmax | lia]).
    rewrite Hnil in H. contradiction.
Qed.

Lemma recent_window_span_witness :
  exists end_ : Z,
    (forall r, In r (compute_indicators true two_bar_frame) ->
               (idate r <= end_)%Z) /\
    (exists r, In r (compute_indicators true two_bar_frame) /\
               idate r = end_) /\
    (forall r, In r (recent_window (compute_indicators true two_bar_frame) 6)
               <-> In r (compute_indicators true two_bar_frame) /\
                   (end_ - 6 * 30 <= idate r)%Z) /\
    ((0 <= 6)%Z ->
     recent_window (compute_indicators true two_bar_frame) 6 <> []).
Proof.
  apply (@recent_window_span (compute_indicators true two_bar_frame) 6).
  discriminate.
Defined.





(** X15: every score that [score_for_horizon] returns passed both gates:
    its window holds at least ten bars, and its mean volume, which is the
    mean volume of the window, is a number of at least 30,000 (or
    infinite), never [NaN]. *)
Theorem scored_passed_gates (rows : iframe) (months : Z) (hs : HorizonScore) :
  score_for_horizon (Some rows) months = Ok (Some hs) ->
  (10 <= length (recent_window rows months))%nat /\
  avg_vol hs = window_mean_volume rows months /\
  (avg_vol hs = PInf \/ exists v, avg_vol hs = Fin v /\ 30000 <= v).
Proof.
  rewrite score_for_horizon_unfold.
  destruct (Nat.ltb_spec (length (recent_window rows months)) 10) as [|Hlen];
    [discriminate|].
  cbv zeta. destruct (isna _ || flt _ _) eqn:G; [discriminate|].
  destruct (log1p_after_gate _ G) as (lg & E & Hv). rewrite E.
  intros [= <-]. simpl. split; [exact Hlen|]. split; [reflexivity|].
  destruct (window_mean_volume rows months) as [| | |v] eqn:V;
    try discriminate.
  - now left.
  - right. exists v. split; [reflexivity|]. now destruct (Hv v eq_refl).
Qed.

Lemma scored_passed_gates_witness :
  exists hs,
    score_for_horizon (Some (compute_indicators true liquid_frame)) 6
      = Ok (Some hs) /\
    (10 <= length (recent_window (compute_indicators true liquid_frame) 6))%nat /\
    avg_vol hs = window_mean_volume (compute_indicators true liquid_frame) 6 /\
    (avg_vol hs = PInf \/ exists v, avg_vol hs = Fin v /\ 30000 <= v).
Proof.
  destruct (@flat_frame_scored true (Fin 100) 50000 6) as [hs E];
    [simpl; auto | lra |].
  exists hs. split; [exact E|].
  exact (@scored_passed_gates _ _ _ E).
Defined.

(** ** The pools of the main scan *)

Lemma pool_append_keys (h : Z) (e : entry) (results : pools) :
  map fst (pool_append h e results) = map fst results.
Proof.
  induction results as [|[k rows] results IH]; [reflexivity|]. simpl.
  destruct (h =? k)%Z; simpl; [reflexivity | now rewrite IH].
Qed.

Lemma pool_of_append_in (h' h : Z) (e e' : entry) (results : pools) :
  In e' (pool_of h' (pool_append h e results)) ->
  In e' (pool_of h' results) \/ (h' = h /\ e' = e).
Proof.
  induction results as [|[k rows] results IH]; simpl; [now left|].
  destruct (Z.eqb_spec h k) as [->|Hk]; simpl.
  - destruct (Z.eqb_spec h' k) as [->|_]; [|now left].
    intros H. apply in_app_or in H. destruct H as [H|[<-|[]]]; auto.
  - destruct (h' =? k)%Z; [now left | exact IH].
Qed.

Lemma pool_of_append_length (h' h : Z) (e : entry) (results : pools) :
  (length (pool_of h' (pool_append h e results))
   <= length (pool_of h' results) + (if (h' =? h)%Z then 1 else 0))%nat.
Proof.
  induction results as [|[k rows] results IH]; simpl; [lia|].
  destruct (Z.eqb_spec h k) as [->|Hk]; simpl.
  - destruct (Z.eqb_spec h' k) as [->|_]; [|lia].
    rewrite length_app. simpl. lia.
  - destruct (Z.eqb_spec h' k) as [->|_]; [lia | exact IH].
Qed.

Lemma returned_score_volume (df : iframe) (h : Z) (hs : HorizonScore) :
  score_for_horizon (Some df) h = Ok (Some hs) ->
  avg_vol hs = PInf \/ exists v, avg_vol hs = Fin v /\ 30000 <= v.
Proof.
  rewrite score_for_horizon_unfold.
  destruct (_ <? _)%nat; [discriminate|].
  cbv zeta. destruct (isna _ || flt _ _) eqn:G; [discriminate|].
  destruct (log1p_after_gate _ G) as (lg & E & Hv). rewrite E.
  intros [= <-]. simpl.
  destruct (window_mean_volume df h) as [| | |v]; try discriminate.
  - now left.
  - right. exists v. split; [reflexivity|]. now destruct (Hv v eq_refl).
Qed.

(** An entry is what the scan appends for [sym] under the horizon [h]. *)
Lemma score_horizons_entries (df : iframe) (sym : string) (hs : list Z)
  (results : pools) (h' : Z) (e' : entry) :
  In e' (pool_of h' (snd (score_horizons df sym hs results))) ->
  In e' (pool_of h' results) \/
  (In h' hs /\ horizon e' = h' /\ symbol e' = sym /\
   (avg_vol (scores e') = PInf \/
    exists v, avg_vol (scores e') = Fin v /\ 30000 <= v)).
Proof.
  revert results; induction hs as [|h hs IH]; intros results;
    cbn [score_horizons snd]; [now left|].
  destruct (score_for_horizon (Some df) h) as [[sc|]|e] eqn:E; cbn [snd].
  - intros H. destruct (IH _ H) as [H1|(A & B & C & D)].
    + destruct (pool_of_append_in _ _ _ _ _ H1) as [H2|[-> ->]];
        [now left|].
      right. cbn [horizon symbol scores].
      split; [now left|]. split; [reflexivity|]. split; [reflexivity|].
      exact (returned_score_volume _ _ E).
    + right. split; [now right | auto].
  - intros H. destruct (IH _ H) as [H1|(A & B & C & D)]; [now left|].
    right. split; [now right | auto].
  - now left.
Qed.

Lemma score_horizons_keys (df : iframe) (sym : string) (hs : list Z)
  (results : pools) :
  map fst (snd (score_horizons df sym hs results)) = map fst results.
Proof.
  revert results; induction hs as [|h hs IH]; intros results;
    cbn [score_horizons snd]; [reflexivity|].
  destruct (score_for_horizon (Some df) h) as [[sc|]|e]; cbn [snd];
    [|apply IH|reflexivity].
  now rewrite IH, pool_append_keys.
Qed.

Lemma score_horizons_length (df : iframe) (sym : string) (hs : list Z)
  (results : pools) (h' : Z) :
  (length (pool_of h' (snd (score_horizons df sym hs results)))
   <= length (pool_of h' results) + count_occ Z.eq_dec hs h')%nat.
Proof.
  revert results; induction hs as [|h hs IH]; intros results;
    cbn [score_horizons snd count_occ]; [lia|].
  destruct (score_for_horizon (Some df) h) as [[sc|]|e]; cbn [snd].
  - specialize (IH (pool_append h (mkEntry sym h sc) results)).
    pose proof (pool_of_append_length h' h (mkEntry sym h sc) results) as Ha.
    destruct (Z.eq_dec h h') as [->|N].
    + rewrite Z.eqb_refl in Ha. lia.
    + destruct (Z.eqb_spec h' h) as [->|_]; [congruence | lia].
  - specialize (IH results). destruct (Z.eq_dec h h'); lia.
  - lia.
Qed.

(** The pools after one symbol. *)
Lemma scan_symbol_pools (w : world) (tok : option string) (sym : string)
  (results r1 : pools) (s s1 : state) :
  scan_symbol w tok results sym s = (Ok r1, s1) ->
  map fst r1 = map fst results /\
  (forall h e, In e (pool_of h r1) ->
     In e (pool_of h results) \/
     (In h HORIZONS_MONTHS /\ horizon e = h /\ symbol e = sym /\
      (avg_vol (scores e) = PInf \/
       exists v, avg_vol (scores e) = Fin v /\ 30000 <= v))) /\
  (forall h, (length (pool_of h r1) <= length (pool_of h results) + 1)%nat).
Proof.
  unfold scan_symbol.
  destruct (get_history w sym tok s) as [[[df|]|x] s0].
  - set (df' := compute_indicators (pandas_pad w) df).
    set (r := snd (score_horizons df' sym HORIZONS_MONTHS results)).
    intros E. assert (Er : r1 = r) by congruence. subst r1. unfold r.
    split; [apply score_horizons_keys|]. split.
    + intros h e. apply score_horizons_entries.
    + intros h.
      pose proof (score_horizons_length df' sym HORIZONS_MONTHS results h)
        as Hl.
      assert (count_occ Z.eq_dec HORIZONS_MONTHS h <= 1)%nat.
      { apply NoDup_count_occ. unfold HORIZONS_MONTHS.
        repeat constructor; simpl; intuition lia. }
      lia.
  - intros E. assert (Er : r1 = results) by congruence. subst r1.
    split; [reflexivity|]. split; [now left | intros; lia].
  - intros E. assert (Er : r1 = results) by congruence. subst r1.
    split; [reflexivity|]. split; [now left | intros; lia].
Qed.

(** The pools after the main scan, from any pools before it. *)
Lemma scan_pools (w : world) (tok : option string) (symbols : list string) :
  forall (results results' : pools) (s s' : state),
    scan w tok symbols results s = (Ok results', s') ->
    map fst results' = map fst results /\
    (forall h e,
        In e (pool_of h results') ->
        In e (pool_of h results) \/
        (In h HORIZONS_MONTHS /\ horizon e = h /\ In (symbol e) symbols /\
         (avg_vol (scores e) = PInf \/
          exists v, avg_vol (scores e) = Fin v /\ 30000 <= v))) /\
    (forall h, (length (pool_of h results')
                <= length (pool_of h results) + length symbols)%nat).
Proof.
  induction symbols as [|sym symbols IH]; intros results results' s s'.
  - cbn [scan]. unfold ret. intros E.
    assert (Er : results' = results) by congruence. subst results'.
    split; [reflexivity|]. split; [now left | intros; lia].
  - cbn [scan]. unfold bind at 1.
    destruct (scan_symbol w tok results sym s) as [[r1|e] s1] eqn:E1;
      [|discriminate].
    intros Hrest. destruct (IH _ _ _ _ Hrest) as (K & I & L).
    destruct (scan_symbol_pools _ _ _ _ _ E1) as (K1 & I1 & L1).
    split; [now rewrite K, K1|]. split.
    + intros h e He. destruct (I h e He) as [H|(A & B & C & D)].
      * destruct (I1 h e H) as [H'|(A & B & C & D)]; [now left|].
        right. repeat split; auto. now left.
      * right. repeat split; auto. now right.
    + intros h. specialize (L h). specialize (L1 h).
      cbn [length]. lia.
Qed.

Lemma pool_of_empty (h : Z) : pool_of h empty_pools = [].
Proof.
  unfold empty_pools, HORIZONS_MONTHS. simpl.
  repeat (destruct (_ =? _)%Z; [reflexivity|]). reflexivity.
Qed.

(** X16: after the main scan the pools are keyed by the five horizons, in
    their order, and every entry of the pool of a horizon carries that
    horizon and a symbol of the universe, and a mean volume that is a
    number of at least 30,000 (or infinite). *)
Theorem pool_entries (w : world) (tok : option string)
  (symbols : list string) (s s' : state) (results : pools) :
  scan w tok symbols empty_pools s = (Ok results, s') ->
  map fst results = HORIZONS_MONTHS /\
  forall h e,
    In e (pool_of h results) ->
    In h HORIZONS_MONTHS /\ horizon e = h /\ In (symbol e) symbols /\
    (avg_vol (scores e) = PInf \/
     exists v, avg_vol (scores e) = Fin v /\ 30000 <= v).
Proof.
  intros H. destruct (scan_pools _ _ _ _ _ H) as (K & I & _).
  split.
  - rewrite K. reflexivity.
  - intros h e He. destruct (I h e He) as [Hold|Hnew]; [|exact Hnew].
    rewrite pool_of_empty in Hold. contradiction.
Qed.

Lemma pool_entries_witness :
  exists results s',
    scan stable_world None ["A"%string] empty_pools init_state
      = (Ok results, s') /\
    map fst results = HORIZONS_MONTHS /\
    forall h e,
      In e (pool_of h results) ->
      In h HORIZONS_MONTHS /\ horizon e = h /\ In (symbol e) ["A"%string] /\
      (avg_vol (scores e) = PInf \/
       exists v, avg_vol (scores e) = Fin v /\ 30000 <= v).
Proof.
  destruct (scan_returns stable_world None ["A"%string] empty_pools init_state)
    as (results & s' & E).
  exists results, s'. split; [exact E|].
  exact (@pool_entries _ _ _ _ _ _ E).
Defined.

(** ** The report *)

(** A run that returns went through the scan and the second part. *)
Lemma analyze_universe_inv (w : world) (symbols : list string)
  (use_dhan use_news : bool) (news_key : option string) (min_avg_vol : float)
  (s s' : state) (o : outcome) :
  analyze_universe w symbols use_dhan use_news news_key min_avg_vol s
    = (Ok o, s') ->
  exists tok results s1 tops,
    (use_dhan = false -> tok = None) /\
    scan w tok symbols empty_pools s = (Ok results, s1) /\
    top_lists w tok HORIZONS_MONTHS results s1 = (Ok tops, s') /\
    workbook o = map sheet_of tops /\
    counts o = map (fun h => (h, length (pool_of h results))) HORIZONS_MONTHS.
Proof.
  unfold analyze_universe. unfold bind at 1.
  assert (Hrest : forall tok,
    (use_dhan = false -> tok = None) ->
    (results <- scan w tok symbols empty_pools ;;
     tops <- top_lists w tok HORIZONS_MONTHS results ;;
     ret (mkOutcome
            ("top_stocks_" ++ str_of_Z (time_now w) ++ ".xlsx")%string
            (map sheet_of tops)
            (map (fun h => (h, length (pool_of h results))) HORIZONS_MONTHS)))
      s = (Ok o, s') ->
    exists tok results s1 tops,
      (use_dhan = false -> tok = None) /\
      scan w tok symbols empty_pools s = (Ok results, s1) /\
      top_lists w tok HORIZONS_MONTHS results s1 = (Ok tops, s') /\
      workbook o = map sheet_of tops /\
      counts o = map (fun h => (h, length (pool_of h results)))
                     HORIZONS_MONTHS).
  { intros tok Htok. unfold bind at 1.
    destruct (scan w tok symbols empty_pools s) as [[results|e] s1] eqn:Es;
      [|discriminate].
    unfold bind at 1.
    destruct (top_lists w tok HORIZONS_MONTHS results s1) as [[tops|e] s2]
      eqn:Et; [|discriminate].
    unfold ret. intros E.
    assert (E1 : s2 = s') by congruence. subst s2.
    assert (E2 : o = mkOutcome
            ("top_stocks_" ++ str_of_Z (time_now w) ++ ".xlsx")%string
            (map sheet_of tops)
            (map (fun h => (h, length (pool_of h results))) HORIZONS_MONTHS))
      by congruence.
    subst o. exists tok, results, s1, tops.
    split; [exact Htok|]. split; [exact Es|]. split; [exact Et|].
    split; reflexivity. }
  destruct use_dhan.
  - unfold lift. destruct (get_secret w "DHAN_TOKEN") as [tok|e];
      [|discriminate].
    apply Hrest. discriminate.
  - unfold ret. apply Hrest. reflexivity.
Qed.

(** X17: the counts of a run that returns are keyed by the five horizons,
    and no count exceeds the number of symbols of the universe. *)
Theorem counts_bounded (w : world) (symbols : list string)
  (use_dhan use_news : bool) (news_key : option string) (min_avg_vol : float)
  (s s' : state) (o : outcome) :
  analyze_universe w symbols use_dhan use_news news_key min_avg_vol s
    = (Ok o, s') ->
  map fst (counts o) = HORIZONS_MONTHS /\
  forall h c, In (h, c) (counts o) -> (c <= length symbols)%nat.
Proof.
  intros H.
  destruct (analyze_universe_inv _ _ _ _ _ _ _ H)
    as (tok & results & s1 & tops & _ & Hscan & _ & _ & Hc).
  destruct (scan_pools _ _ _ _ _ Hscan) as (_ & _ & L).
  rewrite Hc. split.
  - reflexivity.
  - intros h c Hin. apply in_map_iff in Hin.
    destruct Hin as (h0 & [= <- <-] & _).
    specialize (L h0). rewrite pool_of_empty in L. simpl in L. lia.
Qed.

Lemma counts_bounded_witness :
  exists o s',
    analyze_universe thin_world ["A"%string] false false None (Fin 50000)
                     init_state = (Ok o, s') /\
    map fst (counts o) = HORIZONS_MONTHS /\
    forall h c, In (h, c) (counts o) -> (c <= 1)%nat.
Proof.
  destruct (analyze_universe_returns ["A"%string] false None (Fin 50000)
              init_state thin_world_answers)
    as (results & s1 & o & s' & _ & Hrun & _).
  exists o, s'. split; [exact Hrun|].
  exact (@counts_bounded _ _ _ _ _ _ _ _ _ Hrun).
Defined.

(** The sheets that the second part returns, horizon by horizon. *)
Lemma top_lists_sheets (w : world) (tok : option string) (results : pools) :
  sort_values_spec w ->
  forall (hs : list Z) (s s' : state) (tops : list (Z * list RankedCandidate)),
    top_lists w tok hs results s = (Ok tops, s') ->
    map fst tops = hs /\
    Forall2 (fun sh c =>
               sheet_length (snd sh) = Nat.min 10 (snd c) /\
               (snd sh = HeaderOnly <-> snd c = 0%nat))
            (map sheet_of tops)
            (map (fun h => (h, length (pool_of h results))) hs).
Proof.
  intros Hspec. induction hs as [|h hs IH]; intros s s' tops; cbn [top_lists].
  - unfold ret. intros E. assert (tops = []) by congruence. subst.
    split; [reflexivity | constructor].
  - unfold bind at 1.
    destruct (top_list w tok (pool_of h results) s) as [[top|e] s1] eqn:E1;
      [|discriminate].
    unfold bind at 1.
    destruct (top_lists w tok hs results s1) as [[tops'|e] s2] eqn:E2;
      [|discriminate].
    unfold ret. intros E.
    assert (tops = (h, top) :: tops') by congruence. subst tops.
    destruct (IH _ _ _ E2) as [K F].
    split; [simpl; now rewrite K|].
    cbn [map]. constructor; [|exact F].
    pose proof (top_list_rows _ _ _ _ E1) as Hrows.
    destruct (sorted_frame (pool_of h results) Hspec) as (_ & _ & Hsl).
    assert (Hlen : length top = Nat.min 10 (length (pool_of h results))).
    { rewrite <- (length_map (fun c => (cand c, prob_est c)) top).
      fold (sheet_rows top). rewrite Hrows. unfold top10.
      now rewrite length_firstn, Hsl. }
    unfold sheet_of. cbn [fst snd].
    destruct top as [|c top]; cbn [sheet_length length] in *.
    + split; [exact Hlen|]. split; [intros _; lia | reflexivity].
    + split; [exact Hlen|]. split; [discriminate | intros Hz; lia].
Qed.

(** X18: the workbook of a run that returns has one sheet per horizon,
    named [6m], [12m], [18m], [24m] and [48m] in this order; the sheet of a
    horizon has as many rows as its count says, up to ten, and it is the
    header alone exactly when the count is zero. *)
Theorem workbook_sheets (w : world) (symbols : list string)
  (use_dhan use_news : bool) (news_key : option string) (min_avg_vol : float)
  (s s' : state) (o : outcome) :
  sort_values_spec w ->
  analyze_universe w symbols use_dhan use_news news_key min_avg_vol s
    = (Ok o, s') ->
  map fst (workbook o) = ["6m"; "12m"; "18m"; "24m"; "48m"]%string /\
  Forall2 (fun sh c =>
             sheet_length (snd sh) = Nat.min 10 (snd c) /\
             (snd sh = HeaderOnly <-> snd c = 0%nat))
          (workbook o) (counts o).
Proof.
  intros Hspec H.
  destruct (analyze_universe_inv _ _ _ _ _ _ _ H)
    as (tok & results & s1 & tops & _ & _ & Htops & Hw & Hc).
  destruct (top_lists_sheets tok results Hspec _ _ Htops) as [K F].
  rewrite Hw, Hc. split; [|exact F].
  rewrite map_map.
  change (map (fun p => fst (sheet_of p)) tops)
    with (map (fun p : Z * list RankedCandidate =>
                 (str_of_Z (fst p) ++ "m")%string) tops).
  rewrite <- (map_map fst (fun h => (str_of_Z h ++ "m")%string)), K.
  reflexivity.
Qed.

Lemma workbook_sheets_witness :
  exists o s',
    analyze_universe thin_world ["A"%string] false false None (Fin 50000)
                     init_state = (Ok o, s') /\
    map fst (workbook o) = ["6m"; "12m"; "18m"; "24m"; "48m"]%string /\
    Forall2 (fun sh c =>
               sheet_length (snd sh) = Nat.min 10 (snd c) /\
               (snd sh = HeaderOnly <-> snd c = 0%nat))
            (workbook o) (counts o).
Proof.
  destruct (analyze_universe_returns ["A"%string] false None (Fin 50000)
              init_state thin_world_answers)
    as (results & s1 & o & s' & _ & Hrun & _).
  exists o, s'. split; [exact Hrun|].
  apply (@workbook_sheets thin_world _ _ _ _ _ _ _ _ stable_world_spec Hrun).
Defined.

(** ** Calls made by a run without Dhan *)

Lemma get_history_none_state (w : world) (sym : string) (s : state) :
  n_get (snd (get_history w sym None s)) = n_get s /\
  n_history (snd (get_history w sym None s)) = S (n_history s).
Proof.
  destruct (get_history_cases w sym None s) as (_ & _ & H & _).
  now apply H.
Qed.

Lemma compute_stop_state (w : world) (tok : option string) (sym : string)
  (s : state) :
  snd (compute_stop w tok sym s) = snd (get_history w sym tok s).
Proof.
  unfold compute_stop, bind.
  destruct (get_history w sym tok s) as [[[[|b rows]|]|e] s1];
    try reflexivity.
  destruct (compute_indicators (pandas_pad w) (b :: rows));
    [reflexivity|]. now destruct (isna _).
Qed.

Lemma compute_target_state (w : world) (tok : option string) (sym : string)
  (s : state) :
  snd (compute_target w tok sym s) = snd (get_history w sym tok s).
Proof.
  unfold compute_target, bind.
  destruct (get_history w sym tok s) as [[[[|b rows]|]|e] s1];
    try reflexivity.
  destruct (compute_indicators (pandas_pad w) (b :: rows));
    [reflexivity|]. now destruct (isna _).
Qed.

Lemma scan_symbol_state (w : world) (tok : option string) (results : pools)
  (sym : string) (s : state) :
  snd (scan_symbol w tok results sym s) = snd (get_history w sym tok s).
Proof.
  unfold scan_symbol. now destruct (get_history w sym tok s) as [[[df|]|e] s1].
Qed.

Lemma scan_none_state (w : world) (symbols : list string) :
  forall (results : pools) (s : state),
    n_get (snd (scan w None symbols results s)) = n_get s /\
    n_history (snd (scan w None symbols results s))
      = (n_history s + length symbols)%nat.
Proof.
  induction symbols as [|sym symbols IH]; intros results s; cbn [scan].
  - unfold ret. simpl. lia.
  - unfold bind.
    pose proof (scan_symbol_state w None results sym s) as Hs.
    destruct (get_history_none_state w sym s) as [G Hh].
    rewrite <- Hs in G, Hh.
    assert (Hok : exists r, fst (scan_symbol w None results sym s) = Ok r).
    { unfold scan_symbol.
      destruct (get_history w sym None s) as [[[df|]|x] s0]; simpl; eauto. }
    destruct (scan_symbol w None results sym s) as [[r1|e] s1];
      cbn [fst snd] in *.
    + destruct (IH r1 s1) as [G1 H1].
      rewrite G1, H1. cbn [length]. lia.
    + destruct Hok as [r Hr]. discriminate.
Qed.

(** The requests and calls of [mapM] over a function that makes no request
    and exactly one call, whatever its outcome. *)
Lemma mapM_state {A B} (f : A -> M B) (l : list A) :
  (forall a s, n_get (snd (f a s)) = n_get s /\
               n_history (snd (f a s)) = S (n_history s)) ->
  forall s,
    n_get (snd (mapM f l s)) = n_get s /\
    (n_history (snd (mapM f l s)) <= n_history s + length l)%nat /\
    (forall bs s', mapM f l s = (Ok bs, s') ->
                   n_history s' = (n_history s + length l)%nat).
Proof.
  intros Hf. induction l as [|a l IH]; intros s; cbn [mapM].
  - unfold ret. simpl. repeat split; try lia.
    intros bs s' E. assert (s' = s) by congruence. subst. lia.
  - unfold bind, ret. destruct (Hf a s) as [G Hh].
    destruct (f a s) as [[b|e] s1]; cbn [snd] in *.
    + destruct (IH s1) as (G1 & H1 & H2).
      destruct (mapM f l s1) as [[bs|e] s2]; cbn [snd length] in *.
      * split; [lia|]. split; [lia|].
        intros bs' s' E. assert (s' = s2) by congruence. subst.
        rewrite (H2 bs s2 eq_refl). lia.
      * split; [lia|]. split; [lia | discriminate].
    + cbn [length]. split; [lia|]. split; [lia | discriminate].
Qed.

Lemma stop_target_state (w : world) (sym : string) (s : state) :
  (n_get (snd (compute_stop w None sym s)) = n_get s /\
   n_history (snd (compute_stop w None sym s)) = S (n_history s)) /\
  (n_get (snd (compute_target w None sym s)) = n_get s /\
   n_history (snd (compute_target w None sym s)) = S (n_history s)).
Proof.
  rewrite compute_stop_state, compute_target_state.
  split; apply get_history_none_state.
Qed.

Lemma top_list_none_state (w : world) (rows : list entry) (s : state) :
  n_get (snd (top_list w None rows s)) = n_get s /\
  forall sheet s',
    top_list w None rows s = (Ok sheet, s') ->
    n_history s' = (n_history s + 2 * length sheet)%nat.
Proof.
  unfold top_list. destruct rows as [|e rows].
  - unfold ret. simpl. split; [reflexivity|].
    intros sheet s' E. assert (sheet = [] /\ s' = s) as [-> ->]
      by (split; congruence). simpl. lia.
  - set (dfh := top10 w (e :: rows)).
    set (syms := map (fun p => symbol (fst p)) dfh).
    unfold bind, ret.
    destruct (@mapM_state _ _ (compute_stop w None) syms
                (fun a s0 => proj1 (stop_target_state w a s0)) s)
      as (G1 & _ & H1).
    destruct (mapM (compute_stop w None) syms s) as [[st|x] s1] eqn:E1;
      cbn [snd] in *; [|split; [exact G1 | discriminate]].
    destruct (@mapM_state _ _ (compute_target w None) syms
                (fun a s0 => proj2 (stop_target_state w a s0)) s1)
      as (G2 & _ & H2).
    destruct (mapM (compute_target w None) syms s1) as [[tg|x] s2] eqn:E2;
      cbn [snd] in *; [|split; [lia | discriminate]].
    split; [lia|]. intros sheet s' E.
    assert (Es : s' = s2) by congruence. subst s'.
    assert (Esh : length sheet = length dfh).
    { assert (X : sheet = map (fun q =>
                  mkCandidate (fst (fst q)) (snd (fst q))
                              (fst (snd q)) (snd (snd q))
                              (reason_text w (scores (fst (fst q)))))
                  (combine dfh (combine st tg))) by congruence.
      rewrite X, length_map, !length_combine.
      apply mapM_length in E1. apply mapM_length in E2.
      unfold syms in E1, E2. rewrite length_map in E1, E2. lia. }
    rewrite (H1 st s1 eq_refl), (H2 tg s2 eq_refl) in *.
    unfold syms. rewrite length_map. lia.
Qed.

Lemma top_lists_none_state (w : world) (results : pools) (hs : list Z) :
  forall s,
    n_get (snd (top_lists w None hs results s)) = n_get s /\
    forall tops s',
      top_lists w None hs results s = (Ok tops, s') ->
      n_history s' =
        (n_history s
         + 2 * list_sum (map (fun sh => sheet_length (snd sh))
                             (map sheet_of tops)))%nat.
Proof.
  induction hs as [|h hs IH]; intros s; cbn [top_lists].
  - unfold ret. simpl. split; [reflexivity|].
    intros tops s' E. assert (tops = [] /\ s' = s) as [-> ->]
      by (split; congruence). simpl. lia.
  - unfold bind, ret.
    destruct (top_list_none_state w (pool_of h results) s) as [G1 H1].
    destruct (top_list w None (pool_of h results) s) as [[top|x] s1];
      cbn [snd] in *; [|split; [exact G1 | discriminate]].
    destruct (IH s1) as [G2 H2].
    destruct (top_lists w None hs results s1) as [[tops'|x] s2];
      cbn [snd] in *; [|split; [lia | discriminate]].
    split; [lia|]. intros tops s' E.
    assert (X : tops = (h, top) :: tops' /\ s' = s2) by (split; congruence).
    destruct X as [-> ->].
    rewrite (H2 tops' s2 eq_refl), (H1 top s1 eq_refl).
    assert (Hs : sheet_length (snd (sheet_of (h, top))) = length top)
      by (unfold sheet_of; cbn [fst snd]; now destruct top).
    rewrite !map_cons, Hs. unfold list_sum. cbn [fold_right]. lia.
Qed.

(** X19: a run with [use_dhan=False] never sends a request to the primary
    provider, whether it returns or raises. *)
Theorem no_request_without_dhan (w : world) (symbols : list string)
  (use_news : bool) (news_key : option string) (min_avg_vol : float)
  (s : state) :
  n_get (snd (analyze_universe w symbols false use_news news_key
                               min_avg_vol s)) = n_get s.
Proof.
  unfold analyze_universe, bind, ret.
  destruct (scan_none_state w symbols empty_pools s) as [G1 _].
  destruct (scan w None symbols empty_pools s) as [[results|x] s1];
    cbn [snd] in *; [|exact G1].
  destruct (top_lists_none_state w results HORIZONS_MONTHS s1) as [G2 _].
  destruct (top_lists w None HORIZONS_MONTHS results s1) as [[tops|x] s2];
    cbn [snd] in *; lia.
Qed.

(** X20: a run with [use_dhan=False] that returns has called the fallback
    provider once for every symbol of the universe and twice more for every
    row of every sheet: the second part fetches the history of each retained
    candidate again for the stop loss and again for the target. *)
Theorem fallback_calls_of_a_run (w : world) (symbols : list string)
  (use_news : bool) (news_key : option string) (min_avg_vol : float)
  (s s' : state) (o : outcome) :
  analyze_universe w symbols false use_news news_key min_avg_vol s
    = (Ok o, s') ->
  n_history s' =
    (n_history s + length symbols
     + 2 * list_sum (map (fun sh => sheet_length (snd sh)) (workbook o)))%nat.
Proof.
  intros H.
  destruct (analyze_universe_inv _ _ _ _ _ _ _ H)
    as (tok & results & s1 & tops & Htok & Hscan & Htops & Hw & _).
  rewrite (Htok eq_refl) in *.
  destruct (scan_none_state w symbols empty_pools s) as [_ H1].
  rewrite Hscan in H1. cbn [snd] in H1.
  destruct (top_lists_none_state w results HORIZONS_MONTHS s1) as [_ H2].
  rewrite (H2 _ _ Htops), H1, Hw. lia.
Qed.

Lemma fallback_calls_of_a_run_witness :
  exists o s',
    analyze_universe thin_world ["A"%string] false false None (Fin 50000)
                     init_state = (Ok o, s') /\
    n_history s' =
      (0 + 1
       + 2 * list_sum (map (fun sh => sheet_length (snd sh)) (workbook o)))%nat.
Proof.
  destruct (analyze_universe_returns ["A"%string] false None (Fin 50000)
              init_state thin_world_answers)
    as (results & s1 & o & s' & _ & Hrun & _).
  exists o, s'. split; [exact Hrun|].
  exact (@fallback_calls_of_a_run _ _ _ _ _ _ _ _ Hrun).
Defined.

(** ** Credentials and the page *)

(** X21: [get_secret] raises nothing but [RuntimeError], and only when the
    environment holds no value for the field and Firebase cannot be
    initialised or read; a value in the environment is returned without
    Firebase being consulted.  When the lookup of the Dhan token raises, a
    run with [use_dhan=True] ends with that [RuntimeError] before any
    provider is contacted. *)
Theorem credential_failure_is_fatal (w : world) (field_name : string)
  (e : exn) :
  get_secret w field_name = Raise e ->
  e = RuntimeError /\
  (getenv w field_name = None \/ getenv w field_name = Some EmptyString) /\
  ((exists x, init_firebase w = Raise x) \/
   (exists x, firestore_doc w = Raise x)) /\
  (field_name = "DHAN_TOKEN"%string ->
   forall symbols use_news news_key min_avg_vol s,
     analyze_universe w symbols true use_news news_key min_avg_vol s
     = (Raise RuntimeError, s)).
Proof.
  intros H.
  assert (Hf : firestore_secret w field_name = Raise e ->
               e = RuntimeError /\
               ((exists x, init_firebase w = Raise x) \/
                (exists x, firestore_doc w = Raise x))).
  { unfold firestore_secret.
    destruct (init_firebase w) as [[]|x].
    - destruct (firestore_doc w) as [[data|]|y]; try discriminate.
      intros [= <-]. split; [reflexivity|]. right. now exists y.
    - intros [= <-]. split; [reflexivity|]. left. now exists x. }
  assert (He : e = RuntimeError /\
    (getenv w field_name = None \/ getenv w field_name = Some EmptyString) /\
    ((exists x, init_firebase w = Raise x) \/
     (exists x, firestore_doc w = Raise x))).
  { unfold get_secret in H.
    destruct (getenv w field_name) as [[|c v]|]; simpl in H;
      try discriminate; destruct (Hf H) as [A B]; auto. }
  destruct He as (-> & Henv & Hfb).
  split; [reflexivity|]. split; [exact Henv|]. split; [exact Hfb|].
  intros -> symbols use_news news_key min_avg_vol s.
  unfold analyze_universe, bind, lift. now rewrite H.
Qed.

Lemma credential_failure_is_fatal_witness :
  analyze_universe stable_world ["A"%string] true false None
                   MIN_AVG_VOLUME init_state
  = (Raise RuntimeError, init_state).
Proof.
  destruct (@credential_failure_is_fatal stable_world "DHAN_TOKEN"
              RuntimeError eq_refl) as (_ & _ & _ & H).
  apply H. reflexivity.
Defined.



(** X23: an upload that cannot be read does not make the page fall back to
    [nifty500.csv] or to the sample: the universe is [None], the line that
    shows its size raises [TypeError], and a refresh contacts nothing.
    Otherwise the upload wins over [nifty500.csv], which wins over the
    sample of ten symbols, and the size shown is the length of the
    universe that is analysed. *)
Theorem page_universe_priority
  (uploaded nifty500 : option (result (list string))) :
  match uploaded with
  | Some (Raise _) =>
      page_universe uploaded nifty500 = Raise TypeError /\
      forall w use_news min_vol s,
        page_refresh w uploaded nifty500 use_news min_vol s
        = (Raise TypeError, s)
  | Some (Ok symbols) =>
      page_universe uploaded nifty500 = Ok (symbols, length symbols)
  | None =>
      match nifty500 with
      | Some (Ok symbols) =>
          page_universe uploaded nifty500 = Ok (symbols, length symbols)
      | Some (Raise e) => page_universe uploaded nifty500 = Raise e
      | None =>
          page_universe uploaded nifty500 = Ok (sample_universe, 10%nat)
      end
  end /\
  (forall universe n w use_news min_vol s,
      page_universe uploaded nifty500 = Ok (universe, n) ->
      n = length universe /\
      page_refresh w uploaded nifty500 use_news min_vol s
      = analyze_universe w universe true use_news None min_vol s).
Proof.
  split.
  - destruct uploaded as [[l|e]|]; [reflexivity | | ].
    + split; [reflexivity|]. reflexivity.
    + now destruct nifty500 as [[l|e]|].
  - intros universe n w use_news min_vol s H.
    unfold page_refresh, bind, lift. rewrite H. cbn [fst]. split; [|reflexivity].
    unfold page_universe in H.
    destruct (choose_universe uploaded nifty500) as [[u|]|e];
      try discriminate.
    simpl in H. now injection H as <- <-.
Qed.
